(** * esp_tinyusb MSC storage: a model of [tusb_msc_storage.c]

    The storage layer of the TinyUSB mass-storage device: one storage
    handle that binds the four capabilities [sector_count], [sector_size],
    [read] and [write] to either a wear-levelled flash partition or an
    SD/MMC card, the LBA to byte-address translation with its overflow
    checks, and the SCSI callbacks built on top of them.

    The C functions are embedded as computations over a [world]: the global
    [s_storage_handle] and the list of the calls made so far that read,
    erase or write the backing store (wear-levelling library, SD/MMC
    driver) or set the SCSI sense (USB stack).  The two geometry queries of
    the wear-levelling library, [wl_sector_size] and [wl_size], are not put
    on that list: the code calls them, and the model takes their value from
    the [driver], which also gives the collaborators' answers.  So an
    unchanged list means that nothing was read, erased or written, not
    that no library function was entered.  A computation either
    finishes with a value and a new world, or stops (failed [assert], null
    dereference, division by zero).  The target is a 32-bit ESP32:
    [size_t], [uint32_t] and [unsigned int] are 32 bits wide, and integers
    are [Z] with the wrap-around written out.  Log output (ESP_LOGx) has no
    effect on the behaviour modelled here and is left out. *)

From Stdlib Require Import ZArith List Bool Lia Ascii String.
Import ListNotations.
Local Open Scope Z_scope.

(** ** Machine integers *)

Definition UINT_MAX : Z := 2 ^ 32 - 1.

(** Conversion to [size_t] / [uint32_t] / [unsigned int]. *)
Definition uint32_t (x : Z) : Z := x mod 2 ^ 32.
Definition size_t (x : Z) : Z := x mod 2 ^ 32.
Definition uint16_t (x : Z) : Z := x mod 2 ^ 16.
(** Conversion to [int32_t] (two's complement). *)
Definition int32_t (x : Z) : Z := (x + 2 ^ 31) mod 2 ^ 32 - 2 ^ 31.

(** [__builtin_umul_overflow (a, b, &res)] and [__builtin_uadd_overflow]:
    the operands are taken as [unsigned int]; the flag tells whether the
    exact result does not fit, [res] is the result modulo [2^32]. *)
Definition __builtin_umul_overflow (a b : Z) : bool * Z :=
  let p := uint32_t a * uint32_t b in (UINT_MAX <? p, uint32_t p).
Definition __builtin_uadd_overflow (a b : Z) : bool * Z :=
  let s := uint32_t a + uint32_t b in (UINT_MAX <? s, uint32_t s).

(** ** Constants of the libraries the file is compiled against *)

Definition esp_err_t := Z.
Definition ESP_OK : esp_err_t := 0.
Definition ESP_FAIL : esp_err_t := -1.
Definition ESP_ERR_NO_MEM : esp_err_t := 0x101.
Definition ESP_ERR_INVALID_ARG : esp_err_t := 0x102.
Definition ESP_ERR_INVALID_SIZE : esp_err_t := 0x104.

Definition wl_handle_t := Z.
Definition WL_INVALID_HANDLE : wl_handle_t := -1.

Definition SCSI_CMD_PREVENT_ALLOW_MEDIUM_REMOVAL : Z := 0x1E.
Definition SCSI_SENSE_ILLEGAL_REQUEST : Z := 0x05.
Definition SCSI_CODE_ASC_MEDIUM_NOT_PRESENT : Z := 0x3A.
Definition SCSI_CODE_ASC_INVALID_COMMAND_OPERATION_CODE : Z := 0x20.
Definition SCSI_CODE_ASCQ : Z := 0x00.

(** Pointers to buffers and to user callbacks are addresses; [NULL] is 0. *)
Definition ptr := Z.
Definition NULL : ptr := 0.

(** The part of [sdmmc_card_t] the file reads: [card->csd.capacity] and
    [card->csd.sector_size], both C [int]s. *)
Record sdmmc_card_t := mk_card {
  csd_capacity : Z;
  csd_sector_size : Z
}.

(** Modelled from the spec: [tinyusb_msc_event_type_t] is declared in
    tusb_msc_storage.h, which is not among the sources.  The spec names two
    event kinds, mount_changed and premount_changed; as a C enumeration they
    are integers, and any other integer is an unrecognised kind. *)
Definition tinyusb_msc_event_type_t := Z.
Definition TINYUSB_MSC_EVENT_MOUNT_CHANGED : tinyusb_msc_event_type_t := 0.
Definition TINYUSB_MSC_EVENT_PREMOUNT_CHANGED : tinyusb_msc_event_type_t := 1.

Definition tusb_msc_callback_t := ptr.

(** ** The storage handle *)

(** The anonymous union of the handle: it holds the wear-levelling handle
    or the card pointer ([None] is a null card pointer). *)
Inductive backend_ref :=
| wl_handle (h : wl_handle_t)
| card (c : option sdmmc_card_t).

(** The four function pointers of the handle, each pointing to one of the
    two static functions of its type. *)
Inductive sector_count_ptr := p_get_sector_count_spiflash | p_get_sector_count_sdmmc.
Inductive sector_size_ptr := p_get_sector_size_spiflash | p_get_sector_size_sdmmc.
Inductive read_ptr := p_read_sector_spiflash | p_read_sector_sdmmc.
Inductive write_ptr := p_write_sector_spiflash | p_write_sector_sdmmc.

Record tinyusb_msc_storage_handle_s := mk_handle {
  backend : backend_ref;
  sector_count : sector_count_ptr;
  sector_size : sector_size_ptr;
  read : read_ptr;
  write : write_ptr;
  callback_mount_changed : tusb_msc_callback_t;
  callback_premount_changed : tusb_msc_callback_t;
  max_files : Z
}.

Definition set_backend (b : backend_ref) (h : tinyusb_msc_storage_handle_s) :=
  mk_handle b (sector_count h) (sector_size h) (read h) (write h)
            (callback_mount_changed h) (callback_premount_changed h) (max_files h).
Definition set_sector_count (f : sector_count_ptr) (h : tinyusb_msc_storage_handle_s) :=
  mk_handle (backend h) f (sector_size h) (read h) (write h)
            (callback_mount_changed h) (callback_premount_changed h) (max_files h).
Definition set_sector_size (f : sector_size_ptr) (h : tinyusb_msc_storage_handle_s) :=
  mk_handle (backend h) (sector_count h) f (read h) (write h)
            (callback_mount_changed h) (callback_premount_changed h) (max_files h).
Definition set_read (f : read_ptr) (h : tinyusb_msc_storage_handle_s) :=
  mk_handle (backend h) (sector_count h) (sector_size h) f (write h)
            (callback_mount_changed h) (callback_premount_changed h) (max_files h).
Definition set_write (f : write_ptr) (h : tinyusb_msc_storage_handle_s) :=
  mk_handle (backend h) (sector_count h) (sector_size h) (read h) f
            (callback_mount_changed h) (callback_premount_changed h) (max_files h).
Definition set_callback_mount_changed (cb : tusb_msc_callback_t)
           (h : tinyusb_msc_storage_handle_s) :=
  mk_handle (backend h) (sector_count h) (sector_size h) (read h) (write h)
            cb (callback_premount_changed h) (max_files h).
Definition set_callback_premount_changed (cb : tusb_msc_callback_t)
           (h : tinyusb_msc_storage_handle_s) :=
  mk_handle (backend h) (sector_count h) (sector_size h) (read h) (write h)
            (callback_mount_changed h) cb (max_files h).
Definition set_max_files (n : Z) (h : tinyusb_msc_storage_handle_s) :=
  mk_handle (backend h) (sector_count h) (sector_size h) (read h) (write h)
            (callback_mount_changed h) (callback_premount_changed h) n.

(** ** Calls into the collaborators, and the world

    The calls that are recorded: reads, erases and writes of the backing
    store, and the setting of the SCSI sense. *)

Inductive call :=
| wl_read (h : wl_handle_t) (src_addr : Z) (dest : ptr) (size : Z)
| wl_erase_range (h : wl_handle_t) (start_addr : Z) (size : Z)
| wl_write (h : wl_handle_t) (dest_addr : Z) (src : ptr) (size : Z)
| sdmmc_read_sectors (c : option sdmmc_card_t) (dst : ptr) (start_sector : Z) (sector_cnt : Z)
| sdmmc_write_sectors (c : option sdmmc_card_t) (src : ptr) (start_sector : Z) (sector_cnt : Z)
| tud_msc_set_sense (lun sense_key add_sense_code add_sense_qualifier : Z).

Record world := mk_world {
  s_storage_handle : option tinyusb_msc_storage_handle_s;
  calls : list call
}.

(** What the collaborators answer.  [wl_sector_size] and [wl_size] are the
    values of the two geometry queries of the wear-levelling library (these
    calls are not recorded); [answer past c] is the value returned by
    call [c] when [past] is the list of calls made before it; [malloc] is
    the result of the allocation in the init functions ([None] for NULL,
    otherwise the content of the fresh block, which is arbitrary). *)
Record driver := mk_driver {
  wl_sector_size : wl_handle_t -> Z;
  wl_size : wl_handle_t -> Z;
  answer : list call -> call -> esp_err_t;
  malloc : option tinyusb_msc_storage_handle_s
}.

Inductive fault :=
| assert_failed
| null_dereference
| division_by_zero
| wrong_union_member
| out_of_bounds.

Inductive outcome (A : Type) :=
| Done (a : A) (w : world)
| Stop (f : fault).
Arguments Done {A} a w.
Arguments Stop {A} f.

(** ** The monad of computations *)

Definition M (A : Type) := world -> outcome A.

Definition ret {A} (a : A) : M A := fun w => Done a w.
Definition bind {A B} (m : M A) (k : A -> M B) : M B :=
  fun w => match m w with
           | Done a w' => k a w'
           | Stop f => Stop f
           end.
Definition stop {A} (f : fault) : M A := fun _ => Stop f.

Declare Scope msc_scope.
Delimit Scope msc_scope with msc.
Notation "x <- m ;; k" := (bind m (fun x => k))
  (at level 61, m at next level, right associativity) : msc_scope.
Notation "m ;;; k" := (bind m (fun _ => k))
  (at level 61, right associativity) : msc_scope.
Local Open Scope msc_scope.

Definition assert (b : bool) : M unit :=
  if b then ret tt else stop assert_failed.

(** [assert(s_storage_handle)] and [assert(!s_storage_handle)]. *)
Definition assert_handle : M unit :=
  fun w => match s_storage_handle w with
           | Some _ => Done tt w
           | None => Stop assert_failed
           end.
Definition assert_no_handle : M unit :=
  fun w => match s_storage_handle w with
           | Some _ => Stop assert_failed
           | None => Done tt w
           end.

(** Reading through [s_storage_handle]. *)
Definition deref_handle : M tinyusb_msc_storage_handle_s :=
  fun w => match s_storage_handle w with
           | Some h => Done h w
           | None => Stop null_dereference
           end.

(** Writing a field through [s_storage_handle]. *)
Definition update_handle (f : tinyusb_msc_storage_handle_s -> tinyusb_msc_storage_handle_s)
  : M unit :=
  fun w => match s_storage_handle w with
           | Some h => Done tt (mk_world (Some (f h)) (calls w))
           | None => Stop null_dereference
           end.

Definition set_s_storage_handle (p : option tinyusb_msc_storage_handle_s) : M unit :=
  fun w => Done tt (mk_world p (calls w)).

(** [s_storage_handle->wl_handle] and [s_storage_handle->card]. *)
Definition get_wl_handle : M wl_handle_t :=
  h <- deref_handle ;;
  match backend h with
  | wl_handle x => ret x
  | card _ => stop wrong_union_member
  end.
Definition get_card : M (option sdmmc_card_t) :=
  h <- deref_handle ;;
  match backend h with
  | card c => ret c
  | wl_handle _ => stop wrong_union_member
  end.

(** Unsigned [/] and [%]: undefined for a zero divisor. *)
Definition udiv (a b : Z) : M Z :=
  if b =? 0 then stop division_by_zero else ret (a / b).
Definition umod (a b : Z) : M Z :=
  if b =? 0 then stop division_by_zero else ret (a mod b).

(** ** The functions of [tusb_msc_storage.c] *)

Section Storage.

Variable drv : driver.

(** A recorded call (a read, erase or write of the backing store, or the
    setting of the SCSI sense): it is put on the list, and the driver's
    answer is returned. *)
Definition extern (c : call) : M esp_err_t :=
  fun w => Done (answer drv (calls w) c) (mk_world (s_storage_handle w) (calls w ++ [c])).

Definition _get_sector_count_spiflash : M Z :=
  let result := 0 in
  wl <- get_wl_handle ;;
  assert (negb (wl =? WL_INVALID_HANDLE)) ;;;
  let size := size_t (wl_sector_size drv wl) in
  if size =? 0 then
    let result := 0 in
    ret result
  else
    q <- udiv (size_t (wl_size drv wl)) size ;;
    let result := uint32_t q in
    ret result.

Definition _get_sector_size_spiflash : M Z :=
  wl <- get_wl_handle ;;
  assert (negb (wl =? WL_INVALID_HANDLE)) ;;;
  ret (uint32_t (wl_sector_size drv wl)).

Definition _read_sector_spiflash (sector_size lba offset size : Z) (dest : ptr)
  : M esp_err_t :=
  let '(ovf, temp) := __builtin_umul_overflow lba sector_size in
  if ovf then ret ESP_ERR_INVALID_SIZE else
  let '(ovf, addr) := __builtin_uadd_overflow temp offset in
  if ovf then ret ESP_ERR_INVALID_SIZE else
  wl <- get_wl_handle ;;
  extern (wl_read wl addr dest size).

Definition _write_sector_spiflash (sector_size addr lba offset size : Z) (src : ptr)
  : M esp_err_t :=
  wl <- get_wl_handle ;;
  err_rc_ <- extern (wl_erase_range wl addr size) ;;
  if negb (err_rc_ =? ESP_OK) then ret err_rc_ else
  wl <- get_wl_handle ;;
  extern (wl_write wl addr src size).

Definition _get_sector_count_sdmmc : M Z :=
  c <- get_card ;;
  match c with
  | None => stop assert_failed
  | Some c => ret (uint32_t (csd_capacity c))
  end.

Definition _get_sector_size_sdmmc : M Z :=
  c <- get_card ;;
  match c with
  | None => stop assert_failed
  | Some c => ret (uint32_t (csd_sector_size c))
  end.

Definition _read_sector_sdmmc (sector_size lba offset size : Z) (dest : ptr)
  : M esp_err_t :=
  c <- get_card ;;
  n <- udiv size sector_size ;;
  extern (sdmmc_read_sectors c dest lba n).

Definition _write_sector_sdmmc (sector_size addr lba offset size : Z) (src : ptr)
  : M esp_err_t :=
  c <- get_card ;;
  n <- udiv size sector_size ;;
  extern (sdmmc_write_sectors c src lba n).

(** Calls through the function pointers of the handle. *)
Definition call_sector_count (f : sector_count_ptr) : M Z :=
  match f with
  | p_get_sector_count_spiflash => _get_sector_count_spiflash
  | p_get_sector_count_sdmmc => _get_sector_count_sdmmc
  end.
Definition call_sector_size (f : sector_size_ptr) : M Z :=
  match f with
  | p_get_sector_size_spiflash => _get_sector_size_spiflash
  | p_get_sector_size_sdmmc => _get_sector_size_sdmmc
  end.
Definition call_read (f : read_ptr) : Z -> Z -> Z -> Z -> ptr -> M esp_err_t :=
  match f with
  | p_read_sector_spiflash => _read_sector_spiflash
  | p_read_sector_sdmmc => _read_sector_sdmmc
  end.
Definition call_write (f : write_ptr) : Z -> Z -> Z -> Z -> Z -> ptr -> M esp_err_t :=
  match f with
  | p_write_sector_spiflash => _write_sector_spiflash
  | p_write_sector_sdmmc => _write_sector_sdmmc
  end.

Definition tinyusb_msc_storage_get_sector_count : M Z :=
  assert_handle ;;;
  h <- deref_handle ;;
  call_sector_count (sector_count h).

Definition tinyusb_msc_storage_get_sector_size : M Z :=
  assert_handle ;;;
  h <- deref_handle ;;
  call_sector_size (sector_size h).

Definition msc_storage_read_sector (lba offset size : Z) (dest : ptr) : M esp_err_t :=
  assert_handle ;;;
  sz <- tinyusb_msc_storage_get_sector_size ;;
  let sector_size := size_t sz in
  h <- deref_handle ;;
  call_read (read h) sector_size lba offset size dest.

Definition msc_storage_write_sector (lba offset size : Z) (src : ptr) : M esp_err_t :=
  assert_handle ;;;
  sz <- tinyusb_msc_storage_get_sector_size ;;
  let sector_size := size_t sz in
  let '(ovf, temp) := __builtin_umul_overflow lba sector_size in
  if ovf then ret ESP_ERR_INVALID_SIZE else
  let '(ovf, addr) := __builtin_uadd_overflow temp offset in
  if ovf then ret ESP_ERR_INVALID_SIZE else
  r <- umod addr sector_size ;;
  if negb (r =? 0) then ret ESP_ERR_INVALID_ARG else
  r <- umod size sector_size ;;
  if negb (r =? 0) then ret ESP_ERR_INVALID_ARG else
  h <- deref_handle ;;
  call_write (write h) sector_size addr lba offset size src.

Definition tinyusb_msc_register_callback (event_type : tinyusb_msc_event_type_t)
           (callback : tusb_msc_callback_t) : M esp_err_t :=
  assert_handle ;;;
  if event_type =? TINYUSB_MSC_EVENT_MOUNT_CHANGED then
    update_handle (set_callback_mount_changed callback) ;;;
    ret ESP_OK
  else if event_type =? TINYUSB_MSC_EVENT_PREMOUNT_CHANGED then
    update_handle (set_callback_premount_changed callback) ;;;
    ret ESP_OK
  else
    ret ESP_ERR_INVALID_ARG.

Definition tinyusb_msc_unregister_callback (event_type : tinyusb_msc_event_type_t)
  : M esp_err_t :=
  assert_handle ;;;
  if event_type =? TINYUSB_MSC_EVENT_MOUNT_CHANGED then
    update_handle (set_callback_mount_changed NULL) ;;;
    ret ESP_OK
  else if event_type =? TINYUSB_MSC_EVENT_PREMOUNT_CHANGED then
    update_handle (set_callback_premount_changed NULL) ;;;
    ret ESP_OK
  else
    ret ESP_ERR_INVALID_ARG.

(** Modelled from the spec: the configuration structures
    [tinyusb_msc_spiflash_config_t] and [tinyusb_msc_sdmmc_config_t] are
    declared in tusb_msc_storage.h, which is not among the sources.  The
    spec gives an init operation the backend handle, [max_files] and the two
    optional callbacks; these are the fields the init functions read. *)
Record tinyusb_msc_spiflash_config_t := mk_spiflash_config {
  cfg_wl_handle : wl_handle_t;
  cfg_flash_callback_mount_changed : tusb_msc_callback_t;
  cfg_flash_callback_premount_changed : tusb_msc_callback_t;
  cfg_flash_max_files : Z
}.
Record tinyusb_msc_sdmmc_config_t := mk_sdmmc_config {
  cfg_card : option sdmmc_card_t;
  cfg_sdmmc_callback_mount_changed : tusb_msc_callback_t;
  cfg_sdmmc_callback_premount_changed : tusb_msc_callback_t;
  cfg_sdmmc_max_files : Z
}.

Definition the_handle : M (option tinyusb_msc_storage_handle_s) :=
  fun w => Done (s_storage_handle w) w.

(** The part of both init functions after the backend is bound. *)
Definition init_callbacks (mount premount : tusb_msc_callback_t) : M esp_err_t :=
  (if negb (mount =? NULL)
   then tinyusb_msc_register_callback TINYUSB_MSC_EVENT_MOUNT_CHANGED mount
   else tinyusb_msc_unregister_callback TINYUSB_MSC_EVENT_MOUNT_CHANGED) ;;;
  (if negb (premount =? NULL)
   then tinyusb_msc_register_callback TINYUSB_MSC_EVENT_PREMOUNT_CHANGED premount
   else tinyusb_msc_unregister_callback TINYUSB_MSC_EVENT_PREMOUNT_CHANGED) ;;;
  ret ESP_OK.

Definition tinyusb_msc_storage_init_spiflash (config : tinyusb_msc_spiflash_config_t)
  : M esp_err_t :=
  assert_no_handle ;;;
  set_s_storage_handle (malloc drv) ;;;
  p <- the_handle ;;
  match p with
  | None => ret ESP_ERR_NO_MEM
  | Some _ =>
    update_handle (set_sector_count p_get_sector_count_spiflash) ;;;
    update_handle (set_sector_size p_get_sector_size_spiflash) ;;;
    update_handle (set_read p_read_sector_spiflash) ;;;
    update_handle (set_write p_write_sector_spiflash) ;;;
    update_handle (set_backend (wl_handle (cfg_wl_handle config))) ;;;
    let max_files := cfg_flash_max_files config in
    update_handle (set_max_files (if max_files >? 0 then max_files else 2)) ;;;
    init_callbacks (cfg_flash_callback_mount_changed config)
                   (cfg_flash_callback_premount_changed config)
  end.

Definition tinyusb_msc_storage_init_sdmmc (config : tinyusb_msc_sdmmc_config_t)
  : M esp_err_t :=
  assert_no_handle ;;;
  set_s_storage_handle (malloc drv) ;;;
  p <- the_handle ;;
  match p with
  | None => ret ESP_ERR_NO_MEM
  | Some _ =>
    update_handle (set_sector_count p_get_sector_count_sdmmc) ;;;
    update_handle (set_sector_size p_get_sector_size_sdmmc) ;;;
    update_handle (set_read p_read_sector_sdmmc) ;;;
    update_handle (set_write p_write_sector_sdmmc) ;;;
    update_handle (set_backend (card (cfg_card config))) ;;;
    let max_files := cfg_sdmmc_max_files config in
    update_handle (set_max_files (if max_files >? 0 then max_files else 2)) ;;;
    init_callbacks (cfg_sdmmc_callback_mount_changed config)
                   (cfg_sdmmc_callback_premount_changed config)
  end.

Definition tinyusb_msc_storage_deinit : M unit :=
  assert_handle ;;;
  set_s_storage_handle None.

(** *** TinyUSB MSC callbacks *)

Definition tud_msc_test_unit_ready_cb (lun : Z) : M bool := ret true.

(** The two output parameters [*block_count] and [*block_size] are
    returned as a pair. *)
Definition tud_msc_capacity_cb (lun : Z) : M (Z * Z) :=
  sec_count <- tinyusb_msc_storage_get_sector_count ;;
  sec_size <- tinyusb_msc_storage_get_sector_size ;;
  let block_count := sec_count in
  let block_size := uint16_t sec_size in
  ret (block_count, block_size).

Definition tud_msc_start_stop_cb (lun power_condition : Z) (start load_eject : bool)
  : M bool := ret true.

(** The return type is [int32_t]; [bufsize] is a [uint32_t], passed on as
    a [size_t] of the same width and converted when it is returned. *)
Definition tud_msc_read10_cb (lun lba offset : Z) (buffer : ptr) (bufsize : Z) : M Z :=
  err <- msc_storage_read_sector lba offset bufsize buffer ;;
  if negb (err =? ESP_OK) then ret 0 else ret (int32_t bufsize).

Definition tud_msc_write10_cb (lun lba offset : Z) (buffer : ptr) (bufsize : Z) : M Z :=
  err <- msc_storage_write_sector lba offset bufsize buffer ;;
  if negb (err =? ESP_OK) then ret 0 else ret (int32_t bufsize).

(** [scsi_cmd] is the command block; [scsi_cmd[0]] is its opcode. *)
Definition tud_msc_scsi_cb (lun : Z) (scsi_cmd : list Z) (buffer : ptr) (bufsize : Z)
  : M Z :=
  match nth_error scsi_cmd 0 with
  | None => stop out_of_bounds
  | Some opcode =>
    if opcode =? SCSI_CMD_PREVENT_ALLOW_MEDIUM_REMOVAL then
      let ret_ := 0 in
      ret ret_
    else
      extern (tud_msc_set_sense lun SCSI_SENSE_ILLEGAL_REQUEST
                SCSI_CODE_ASC_INVALID_COMMAND_OPERATION_CODE SCSI_CODE_ASCQ) ;;;
      let ret_ := -1 in
      ret ret_
  end.

Definition tud_umount_cb : M unit := ret tt.
Definition tud_mount_cb : M unit := ret tt.

End Storage.

(** ** Sample configurations

    A driver over a 1 MiB wear-levelled partition whose sector size is
    [wl_sec_size], and a card with 512-byte sectors; every call succeeds,
    except that the erase answers [erase_result]. *)

Definition fresh_block : tinyusb_msc_storage_handle_s :=
  mk_handle (wl_handle 0x5A5A) p_get_sector_count_sdmmc p_get_sector_size_spiflash
            p_read_sector_sdmmc p_write_sector_spiflash 0xDEAD 0xBEEF (-7).

Definition sample_driver (wl_sec_size : Z) (erase_result : esp_err_t) : driver :=
  {| wl_sector_size := fun _ => wl_sec_size;
     wl_size := fun _ => 1048576;
     answer := fun _ c => match c with
                          | wl_erase_range _ _ _ => erase_result
                          | _ => ESP_OK
                          end;
     malloc := Some fresh_block |}.

Definition sample_card : sdmmc_card_t := mk_card 15523840 512.

Definition boot : world := mk_world None [].

Definition world_after {A} (o : outcome A) : world :=
  match o with
  | Done _ w => w
  | Stop _ => boot
  end.

Definition flash_world : world :=
  world_after (tinyusb_msc_storage_init_spiflash (sample_driver 512 ESP_OK)
                 (mk_spiflash_config 1 NULL NULL 0) boot).

Definition sdmmc_world : world :=
  world_after (tinyusb_msc_storage_init_sdmmc (sample_driver 512 ESP_OK)
                 (mk_sdmmc_config (Some sample_card) NULL 0x4000 5) boot).

(** A handle as the init functions leave it: the four capabilities of one
    backend, and a usable reference to that backend. *)
Definition handle_bound (h : tinyusb_msc_storage_handle_s) : bool :=
  match backend h, sector_count h, sector_size h, read h, write h with
  | wl_handle x, p_get_sector_count_spiflash, p_get_sector_size_spiflash,
    p_read_sector_spiflash, p_write_sector_spiflash => negb (x =? WL_INVALID_HANDLE)
  | card (Some _), p_get_sector_count_sdmmc, p_get_sector_size_sdmmc,
    p_read_sector_sdmmc, p_write_sector_sdmmc => true
  | _, _, _, _, _ => false
  end.

(** ** The inquiry callback

    The three output arrays are lists of bytes.  A C string constant is the
    array of its character codes followed by the terminating zero. *)

Definition c_string (s : string) : list Z :=
  List.map (fun a => Z.of_N (N_of_ascii a)) (list_ascii_of_string s) ++ [0].

(** [strlen]: the number of bytes before the first zero. *)
Fixpoint strlen (s : list Z) : nat :=
  match s with
  | [] => O
  | c :: rest => if c =? 0 then O else S (strlen rest)
  end.

(** [memcpy (dest, src, n)]: the first [n] bytes of [dest] are replaced by
    the first [n] bytes of [src]; both arrays must hold [n] bytes. *)
Definition memcpy (dest src : list Z) (n : nat) : M (list Z) :=
  if ((n <=? List.length dest) && (n <=? List.length src))%nat
  then ret (List.firstn n src ++ List.skipn n dest)
  else stop out_of_bounds.

(** The arrays [vendor_id], [product_id] and [product_rev] after the call
    are returned as a triple. *)
Definition tud_msc_inquiry_cb (lun : Z) (vendor_id product_id product_rev : list Z)
  : M (list Z * list Z * list Z) :=
  let vid := c_string "TinyUSB"%string in
  let pid := c_string "Flash Storage"%string in
  let rev := c_string "0.1"%string in
  bind (memcpy vendor_id vid (strlen vid)) (fun vendor_id =>
  bind (memcpy product_id pid (strlen pid)) (fun product_id =>
  bind (memcpy product_rev rev (strlen rev)) (fun product_rev =>
  ret (vendor_id, product_id, product_rev)))).

(** ** Kinds of calls *)

Definition is_read_primitive (c : call) : bool :=
  match c with
  | wl_read _ _ _ _ | sdmmc_read_sectors _ _ _ _ => true
  | _ => false
  end.

Definition is_write_primitive (c : call) : bool :=
  match c with
  | wl_write _ _ _ _ | sdmmc_write_sectors _ _ _ _ => true
  | _ => false
  end.

Definition is_erase_primitive (c : call) : bool :=
  match c with
  | wl_erase_range _ _ _ => true
  | _ => false
  end.

(** A read, an erase or a write of the backing store. *)
Definition is_medium_io (c : call) : bool :=
  is_read_primitive c || is_erase_primitive c || is_write_primitive c.

(** * Properties *)

Example flash_world_value :
  flash_world =
  mk_world (Some (mk_handle (wl_handle 1) p_get_sector_count_spiflash
                            p_get_sector_size_spiflash p_read_sector_spiflash
                            p_write_sector_spiflash NULL NULL 2)) [].
Proof. reflexivity. Qed.

Example sdmmc_world_value :
  sdmmc_world =
  mk_world (Some (mk_handle (card (Some sample_card)) p_get_sector_count_sdmmc
                            p_get_sector_size_sdmmc p_read_sector_sdmmc
                            p_write_sector_sdmmc NULL 0x4000 5)) [].
Proof. reflexivity. Qed.

Example spec_example_write :
  msc_storage_write_sector (sample_driver 512 ESP_OK) 10 0 512 0x3000 flash_world
  = Done ESP_OK
      (mk_world (s_storage_handle flash_world)
                [wl_erase_range 1 5120 512; wl_write 1 5120 0x3000 512]).
Proof. reflexivity. Qed.

Example spec_example_overflow :
  msc_storage_write_sector (sample_driver 512 ESP_OK) 0xFFFFFFFF 0 512 0x3000 flash_world
  = Done ESP_ERR_INVALID_SIZE flash_world.
Proof. reflexivity. Qed.

(** ** Machine integers *)

Lemma uint32_t_range x : 0 <= uint32_t x < 2 ^ 32.
Proof. unfold uint32_t. apply Z.mod_pos_bound. reflexivity. Qed.

Lemma uint32_t_small x : 0 <= x < 2 ^ 32 -> uint32_t x = x.
Proof. intros H. unfold uint32_t. now apply Z.mod_small. Qed.

Lemma size_t_small x : 0 <= x < 2 ^ 32 -> size_t x = x.
Proof. intros H. unfold size_t. now apply Z.mod_small. Qed.

Lemma int32_t_small x : 0 <= x < 2 ^ 31 -> int32_t x = x.
Proof.
  intros H. unfold int32_t.
  rewrite Z.mod_small; change (2 ^ 31) with 2147483648 in *;
    change (2 ^ 32) with 4294967296; lia.
Qed.

Lemma umul_no_overflow a b :
  0 <= a < 2 ^ 32 -> 0 <= b < 2 ^ 32 -> a * b < 2 ^ 32 ->
  __builtin_umul_overflow a b = (false, a * b).
Proof.
  intros Ha Hb Hab. unfold __builtin_umul_overflow.
  rewrite (uint32_t_small a Ha), (uint32_t_small b Hb).
  rewrite uint32_t_small by (split; [apply Z.mul_nonneg_nonneg|]; lia).
  f_equal. apply Z.ltb_ge. unfold UINT_MAX. lia.
Qed.

Lemma umul_overflow a b :
  0 <= a < 2 ^ 32 -> 0 <= b < 2 ^ 32 -> 2 ^ 32 <= a * b ->
  fst (__builtin_umul_overflow a b) = true.
Proof.
  intros Ha Hb Hab. unfold __builtin_umul_overflow.
  rewrite (uint32_t_small a Ha), (uint32_t_small b Hb). simpl.
  apply Z.ltb_lt. unfold UINT_MAX. lia.
Qed.

Lemma uadd_no_overflow a b :
  0 <= a < 2 ^ 32 -> 0 <= b < 2 ^ 32 -> a + b < 2 ^ 32 ->
  __builtin_uadd_overflow a b = (false, a + b).
Proof.
  intros Ha Hb Hab. unfold __builtin_uadd_overflow.
  rewrite (uint32_t_small a Ha), (uint32_t_small b Hb).
  rewrite uint32_t_small by lia.
  f_equal. apply Z.ltb_ge. unfold UINT_MAX. lia.
Qed.

Lemma uadd_overflow a b :
  0 <= a < 2 ^ 32 -> 0 <= b < 2 ^ 32 -> 2 ^ 32 <= a + b ->
  fst (__builtin_uadd_overflow a b) = true.
Proof.
  intros Ha Hb Hab. unfold __builtin_uadd_overflow.
  rewrite (uint32_t_small a Ha), (uint32_t_small b Hb). simpl.
  apply Z.ltb_lt. unfold UINT_MAX. lia.
Qed.

(** ** The geometry provider *)

Ltac run :=
  cbv beta iota zeta delta
    [bind ret stop assert assert_handle deref_handle get_wl_handle get_card
     update_handle extern udiv umod];
  simpl.

Section Geometry.

Variable drv : driver.
Variables (w : world) (h : tinyusb_msc_storage_handle_s).
Hypothesis Hh : s_storage_handle w = Some h.

Lemma get_wl_handle_bound x : backend h = wl_handle x -> get_wl_handle w = Done x w.
Proof. intros Hb. run. rewrite Hh. simpl. rewrite Hb. reflexivity. Qed.

Lemma get_card_bound c : backend h = card c -> get_card w = Done c w.
Proof. intros Hb. run. rewrite Hh. simpl. rewrite Hb. reflexivity. Qed.

Lemma get_sector_size_spiflash_value x :
  backend h = wl_handle x -> x <> WL_INVALID_HANDLE ->
  _get_sector_size_spiflash drv w = Done (uint32_t (wl_sector_size drv x)) w.
Proof.
  intros Hb Hx. unfold _get_sector_size_spiflash, bind at 1.
  rewrite (get_wl_handle_bound x Hb).
  apply Z.eqb_neq in Hx. run. rewrite Hx. reflexivity.
Qed.

Lemma get_sector_size_sdmmc_value c :
  backend h = card (Some c) ->
  _get_sector_size_sdmmc w = Done (uint32_t (csd_sector_size c)) w.
Proof.
  intros Hb. unfold _get_sector_size_sdmmc, bind at 1.
  rewrite (get_card_bound _ Hb). reflexivity.
Qed.

Lemma get_sector_count_sdmmc_value c :
  backend h = card (Some c) ->
  _get_sector_count_sdmmc w = Done (uint32_t (csd_capacity c)) w.
Proof.
  intros Hb. unfold _get_sector_count_sdmmc, bind at 1.
  rewrite (get_card_bound _ Hb). reflexivity.
Qed.

Lemma get_sector_count_spiflash_value x :
  backend h = wl_handle x -> x <> WL_INVALID_HANDLE ->
  _get_sector_count_spiflash drv w =
  Done (if size_t (wl_sector_size drv x) =? 0 then 0
        else uint32_t (size_t (wl_size drv x) / size_t (wl_sector_size drv x))) w.
Proof.
  intros Hb Hx. unfold _get_sector_count_spiflash, bind at 1.
  rewrite (get_wl_handle_bound x Hb).
  apply Z.eqb_neq in Hx. run. rewrite Hx. simpl.
  destruct (size_t (wl_sector_size drv x) =? 0); reflexivity.
Qed.

Lemma storage_get_sector_size_unfold :
  tinyusb_msc_storage_get_sector_size drv w = call_sector_size drv (sector_size h) w.
Proof.
  unfold tinyusb_msc_storage_get_sector_size. run. rewrite Hh. simpl.
  rewrite Hh. reflexivity.
Qed.

Lemma storage_get_sector_count_unfold :
  tinyusb_msc_storage_get_sector_count drv w = call_sector_count drv (sector_count h) w.
Proof.
  unfold tinyusb_msc_storage_get_sector_count. run. rewrite Hh. simpl.
  rewrite Hh. reflexivity.
Qed.

(** The geometry getters record no call (they read, erase and write
    nothing) and leave the handle alone, and what
    they return is a [uint32_t]. *)
Lemma storage_get_sector_size_pure ss w' :
  tinyusb_msc_storage_get_sector_size drv w = Done ss w' ->
  w' = w /\ 0 <= ss < 2 ^ 32.
Proof.
  rewrite storage_get_sector_size_unfold.
  destruct (sector_size h); simpl.
  - unfold _get_sector_size_spiflash. run. rewrite Hh. simpl.
    destruct (backend h); [|discriminate].
    destruct (negb (h0 =? WL_INVALID_HANDLE)); [|discriminate].
    intros E; inversion E; subst. split; [reflexivity | apply uint32_t_range].
  - unfold _get_sector_size_sdmmc. run. rewrite Hh. simpl.
    destruct (backend h) as [|[c|]]; try discriminate.
    intros E; inversion E; subst. split; [reflexivity | apply uint32_t_range].
Qed.

(** On a handle bound by an init function both getters return. *)
Lemma geometry_total :
  handle_bound h = true ->
  exists c s,
    tinyusb_msc_storage_get_sector_count drv w = Done c w /\
    tinyusb_msc_storage_get_sector_size drv w = Done s w /\
    0 <= s < 2 ^ 32.
Proof.
  intros Hb.
  rewrite storage_get_sector_size_unfold, storage_get_sector_count_unfold.
  unfold handle_bound in Hb.
  destruct (backend h) as [x|[c|]] eqn:Eb;
    destruct (sector_count h), (sector_size h), (read h), (write h);
    try discriminate; simpl.
  - apply negb_true_iff, Z.eqb_neq in Hb.
    rewrite (get_sector_count_spiflash_value x Eb Hb),
            (get_sector_size_spiflash_value x Eb Hb).
    eexists _, _. repeat split; apply uint32_t_range.
  - rewrite (get_sector_count_sdmmc_value c Eb), (get_sector_size_sdmmc_value c Eb).
    eexists _, _. repeat split; apply uint32_t_range.
Qed.

End Geometry.

Section GeometryClaims.

Variable drv : driver.

(** C9.  On the flash backend (a handle bound to a valid wear-levelling
    handle), when the wear-levelling layer reports a sector size of zero,
    the sector count is 0 and the computation finishes: the division
    [wl_size / sector_size] is not performed, so nothing divides by zero.
    Otherwise the sector count is the floor of [wl_size / sector_size].
    The same holds for [tinyusb_msc_storage_get_sector_count] when the
    handle's [sector_count] capability is the flash one. *)
Theorem sector_count_spiflash_no_division_by_zero
        (w : world) (h : tinyusb_msc_storage_handle_s) (x : wl_handle_t) :
  s_storage_handle w = Some h ->
  backend h = wl_handle x ->
  x <> WL_INVALID_HANDLE ->
  0 <= wl_sector_size drv x < 2 ^ 32 ->
  0 <= wl_size drv x < 2 ^ 32 ->
  let expected := if wl_sector_size drv x =? 0 then 0
                  else wl_size drv x / wl_sector_size drv x in
  _get_sector_count_spiflash drv w = Done expected w /\
  (sector_count h = p_get_sector_count_spiflash ->
   tinyusb_msc_storage_get_sector_count drv w = Done expected w).
Proof.
  intros Hh Hb Hx Hss Hsz expected.
  assert (E : _get_sector_count_spiflash drv w = Done expected w).
  { rewrite (get_sector_count_spiflash_value drv w h Hh x Hb Hx).
    rewrite (size_t_small _ Hss), (size_t_small _ Hsz).
    subst expected.
    destruct (Z.eqb_spec (wl_sector_size drv x) 0) as [|Hnz]; [reflexivity|].
    rewrite uint32_t_small; [reflexivity|].
    split.
    - apply Z.div_pos; lia.
    - apply Z.div_lt_upper_bound; nia. }
  split; [exact E|].
  intros Hf. rewrite (storage_get_sector_count_unfold drv w h Hh), Hf. exact E.
Qed.

(** C8.  A capacity query on a bound handle finishes, and reports as block
    count the value of the backend's [sector_count] unchanged and as block
    size the backend's [sector_size] reduced modulo [2^16]. *)
Theorem capacity_cb_reports_geometry
        (w : world) (h : tinyusb_msc_storage_handle_s) (lun : Z) :
  s_storage_handle w = Some h ->
  handle_bound h = true ->
  exists c s,
    call_sector_count drv (sector_count h) w = Done c w /\
    call_sector_size drv (sector_size h) w = Done s w /\
    tud_msc_capacity_cb drv lun w = Done (c, s mod 2 ^ 16) w.
Proof.
  intros Hh Hb.
  destruct (geometry_total drv w h Hh Hb) as (c & s & Hc & Hs & _).
  exists c, s.
  rewrite <- (storage_get_sector_count_unfold drv w h Hh),
          <- (storage_get_sector_size_unfold drv w h Hh).
  repeat split; try assumption.
  unfold tud_msc_capacity_cb, bind. rewrite Hc, Hs. reflexivity.
Qed.

End GeometryClaims.

Lemma sector_count_spiflash_no_division_by_zero_witness :
  _get_sector_count_spiflash (sample_driver 0 ESP_OK) flash_world = Done 0 flash_world /\
  _get_sector_count_spiflash (sample_driver 512 ESP_OK) flash_world = Done 2048 flash_world.
Proof.
  split.
  - refine (proj1 (sector_count_spiflash_no_division_by_zero
                     (sample_driver 0 ESP_OK) flash_world _ 1 eq_refl eq_refl _ _ _));
      simpl; [discriminate | lia | lia].
  - refine (proj1 (sector_count_spiflash_no_division_by_zero
                     (sample_driver 512 ESP_OK) flash_world _ 1 eq_refl eq_refl _ _ _));
      simpl; [discriminate | lia | lia].
Defined.

Lemma capacity_cb_reports_geometry_witness :
  exists c s,
    call_sector_count (sample_driver 0x20200 ESP_OK) p_get_sector_count_spiflash flash_world
      = Done c flash_world /\
    call_sector_size (sample_driver 0x20200 ESP_OK) p_get_sector_size_spiflash flash_world
      = Done s flash_world /\
    tud_msc_capacity_cb (sample_driver 0x20200 ESP_OK) 0 flash_world
      = Done (c, s mod 2 ^ 16) flash_world.
Proof.
  exact (capacity_cb_reports_geometry (sample_driver 0x20200 ESP_OK) flash_world _ 0
           eq_refl eq_refl).
Defined.

(** With a sector size of 0x20200 the host is told 0x0200. *)
Example capacity_truncates :
  tud_msc_capacity_cb (sample_driver 0x20200 ESP_OK) 0 flash_world
  = Done (7, 512) flash_world.
Proof. reflexivity. Qed.

(** ** Initialisation

    When the allocation succeeds, an init function leaves a handle that does
    not depend on the content of the fresh block: the capabilities of its
    backend, the callbacks of the configuration and [max_files], with 2 for
    a value that is not positive. *)

Section Init.

Variable drv : driver.
Variable junk : tinyusb_msc_storage_handle_s.
Hypothesis Hmalloc : malloc drv = Some junk.

Lemma init_callbacks_value mount premount hd cs :
  init_callbacks mount premount (mk_world (Some hd) cs)
  = Done ESP_OK
      (mk_world (Some (set_callback_premount_changed premount
                         (set_callback_mount_changed mount hd))) cs).
Proof.
  unfold init_callbacks, tinyusb_msc_register_callback, tinyusb_msc_unregister_callback.
  destruct (Z.eqb_spec mount NULL) as [->|Hm];
    destruct (Z.eqb_spec premount NULL) as [->|Hp]; reflexivity.
Qed.

Lemma init_spiflash_value config cs :
  tinyusb_msc_storage_init_spiflash drv config (mk_world None cs)
  = Done ESP_OK
      (mk_world
         (Some (mk_handle (wl_handle (cfg_wl_handle config))
                          p_get_sector_count_spiflash p_get_sector_size_spiflash
                          p_read_sector_spiflash p_write_sector_spiflash
                          (cfg_flash_callback_mount_changed config)
                          (cfg_flash_callback_premount_changed config)
                          (if cfg_flash_max_files config >? 0
                           then cfg_flash_max_files config else 2)))
         cs).
Proof.
  unfold tinyusb_msc_storage_init_spiflash.
  cbv beta iota zeta delta
    [bind assert_no_handle set_s_storage_handle the_handle update_handle
     s_storage_handle calls].
  rewrite Hmalloc. cbv beta iota. rewrite init_callbacks_value. reflexivity.
Qed.

Lemma init_sdmmc_value config cs :
  tinyusb_msc_storage_init_sdmmc drv config (mk_world None cs)
  = Done ESP_OK
      (mk_world
         (Some (mk_handle (card (cfg_card config))
                          p_get_sector_count_sdmmc p_get_sector_size_sdmmc
                          p_read_sector_sdmmc p_write_sector_sdmmc
                          (cfg_sdmmc_callback_mount_changed config)
                          (cfg_sdmmc_callback_premount_changed config)
                          (if cfg_sdmmc_max_files config >? 0
                           then cfg_sdmmc_max_files config else 2)))
         cs).
Proof.
  unfold tinyusb_msc_storage_init_sdmmc.
  cbv beta iota zeta delta
    [bind assert_no_handle set_s_storage_handle the_handle update_handle
     s_storage_handle calls].
  rewrite Hmalloc. cbv beta iota. rewrite init_callbacks_value. reflexivity.
Qed.

End Init.

(** A second init without a deinit in between stops at the assertion. *)
Lemma init_twice_asserts drv config1 config2 hd cs :
  tinyusb_msc_storage_init_spiflash drv config1 (mk_world (Some hd) cs)
  = Stop assert_failed /\
  tinyusb_msc_storage_init_sdmmc drv config2 (mk_world (Some hd) cs)
  = Stop assert_failed.
Proof. split; reflexivity. Qed.

(** ** The sector translator *)

Section Translator.

Variable drv : driver.
Variables (w : world) (h : tinyusb_msc_storage_handle_s) (ss : Z).
Hypothesis Hh : s_storage_handle w = Some h.
Hypothesis Hss : tinyusb_msc_storage_get_sector_size drv w = Done ss w.

Lemma sector_size_range : 0 <= ss < 2 ^ 32.
Proof. exact (proj2 (storage_get_sector_size_pure drv w h Hh ss w Hss)). Qed.

Lemma msc_storage_read_sector_unfold lba offset size dest :
  msc_storage_read_sector drv lba offset size dest w
  = call_read drv (read h) ss lba offset size dest w.
Proof.
  unfold msc_storage_read_sector, bind, assert_handle, deref_handle.
  rewrite Hh, Hss, Hh, (size_t_small ss sector_size_range). reflexivity.
Qed.

Lemma msc_storage_write_sector_unfold lba offset size src :
  msc_storage_write_sector drv lba offset size src w
  = (let '(ovf, temp) := __builtin_umul_overflow lba ss in
     if ovf then ret ESP_ERR_INVALID_SIZE else
     let '(ovf, addr) := __builtin_uadd_overflow temp offset in
     if ovf then ret ESP_ERR_INVALID_SIZE else
     r <- umod addr ss ;;
     if negb (r =? 0) then ret ESP_ERR_INVALID_ARG else
     r <- umod size ss ;;
     if negb (r =? 0) then ret ESP_ERR_INVALID_ARG else
     call_write drv (write h) ss addr lba offset size src) w.
Proof.
  unfold msc_storage_write_sector, bind at 1, assert_handle.
  rewrite Hh. unfold bind at 1.
  rewrite Hss, (size_t_small ss sector_size_range).
  destruct (__builtin_umul_overflow lba ss) as [[|] temp]; [reflexivity|].
  destruct (__builtin_uadd_overflow temp offset) as [[|] addr]; [reflexivity|].
  unfold bind, umod, deref_handle.
  destruct (ss =? 0); [reflexivity|]. simpl.
  destruct (negb (addr mod ss =? 0)); [reflexivity|].
  destruct (negb (size mod ss =? 0)); [reflexivity|].
  rewrite Hh. reflexivity.
Qed.

(** The two checked operations of the translation, on a request whose
    address does not fit. *)
Lemma translation_overflows lba offset :
  0 <= lba < 2 ^ 32 -> 0 <= offset < 2 ^ 32 ->
  2 ^ 32 <= lba * ss \/ 2 ^ 32 <= lba * ss + offset ->
  fst (__builtin_umul_overflow lba ss) = true \/
  (__builtin_umul_overflow lba ss = (false, lba * ss) /\
   fst (__builtin_uadd_overflow (lba * ss) offset) = true).
Proof.
  intros Hl Ho Hov. pose proof sector_size_range as Hs.
  destruct (Z_lt_le_dec (lba * ss) (2 ^ 32)) as [Hlt|Hge].
  - right. split; [now apply umul_no_overflow|].
    apply uadd_overflow; try assumption; [nia | lia].
  - left. now apply umul_overflow.
Qed.

Lemma translation_fits lba offset :
  0 <= lba < 2 ^ 32 -> 0 <= offset < 2 ^ 32 ->
  lba * ss + offset < 2 ^ 32 ->
  __builtin_umul_overflow lba ss = (false, lba * ss) /\
  __builtin_uadd_overflow (lba * ss) offset = (false, lba * ss + offset).
Proof.
  intros Hl Ho Hfit. pose proof sector_size_range as Hs.
  assert (0 <= lba * ss) by nia.
  split; [apply umul_no_overflow | apply uadd_no_overflow]; lia.
Qed.

Lemma write_sector_overflow lba offset size src :
  0 <= lba < 2 ^ 32 -> 0 <= offset < 2 ^ 32 ->
  2 ^ 32 <= lba * ss \/ 2 ^ 32 <= lba * ss + offset ->
  msc_storage_write_sector drv lba offset size src w = Done ESP_ERR_INVALID_SIZE w.
Proof.
  intros Hl Ho Hov. rewrite msc_storage_write_sector_unfold.
  destruct (translation_overflows lba offset Hl Ho Hov) as [Hm|[Hm Ha]].
  - destruct (__builtin_umul_overflow lba ss) as [ovf temp]. simpl in Hm.
    subst ovf. reflexivity.
  - rewrite Hm.
    destruct (__builtin_uadd_overflow (lba * ss) offset) as [ovf addr]. simpl in Ha.
    subst ovf. reflexivity.
Qed.

Lemma read_sector_spiflash_overflow lba offset size dest :
  0 <= lba < 2 ^ 32 -> 0 <= offset < 2 ^ 32 ->
  2 ^ 32 <= lba * ss \/ 2 ^ 32 <= lba * ss + offset ->
  _read_sector_spiflash drv ss lba offset size dest w = Done ESP_ERR_INVALID_SIZE w.
Proof.
  intros Hl Ho Hov. unfold _read_sector_spiflash.
  destruct (translation_overflows lba offset Hl Ho Hov) as [Hm|[Hm Ha]].
  - destruct (__builtin_umul_overflow lba ss) as [ovf temp]. simpl in Hm.
    subst ovf. reflexivity.
  - rewrite Hm.
    destruct (__builtin_uadd_overflow (lba * ss) offset) as [ovf addr]. simpl in Ha.
    subst ovf. reflexivity.
Qed.

Lemma read_sector_spiflash_fits x lba offset size dest :
  backend h = wl_handle x ->
  0 <= lba < 2 ^ 32 -> 0 <= offset < 2 ^ 32 ->
  lba * ss + offset < 2 ^ 32 ->
  _read_sector_spiflash drv ss lba offset size dest w
  = extern drv (wl_read x (lba * ss + offset) dest size) w.
Proof.
  intros Hb Hl Ho Hfit. unfold _read_sector_spiflash.
  destruct (translation_fits lba offset Hl Ho Hfit) as [Hm Ha].
  rewrite Hm, Ha. unfold bind. rewrite (get_wl_handle_bound w h Hh x Hb).
  reflexivity.
Qed.

Lemma read_sector_sdmmc_value c lba offset size dest :
  backend h = card c -> ss <> 0 ->
  _read_sector_sdmmc drv ss lba offset size dest w
  = extern drv (sdmmc_read_sectors c dest lba (size / ss)) w.
Proof.
  intros Hb Hnz. unfold _read_sector_sdmmc, bind at 1.
  rewrite (get_card_bound w h Hh c Hb). unfold bind, udiv.
  apply Z.eqb_neq in Hnz. rewrite Hnz. reflexivity.
Qed.

Lemma write_sector_sdmmc_value c addr lba offset size src :
  backend h = card c -> ss <> 0 ->
  _write_sector_sdmmc drv ss addr lba offset size src w
  = extern drv (sdmmc_write_sectors c src lba (size / ss)) w.
Proof.
  intros Hb Hnz. unfold _write_sector_sdmmc, bind at 1.
  rewrite (get_card_bound w h Hh c Hb). unfold bind, udiv.
  apply Z.eqb_neq in Hnz. rewrite Hnz. reflexivity.
Qed.

End Translator.

Section TranslatorClaims.

Variable drv : driver.
Variables (w : world) (h : tinyusb_msc_storage_handle_s) (ss : Z).
Hypothesis Hh : s_storage_handle w = Some h.
Hypothesis Hss : tinyusb_msc_storage_get_sector_size drv w = Done ss w.

(** C1, as amended.  When [lba * sector_size] or the addition of [offset]
    overflows 32 bits, a write on either backend and a read on the flash
    backend return ESP_ERR_INVALID_SIZE and leave the world as it was: no
    read, write or erase call is made.  A read on the SD/MMC backend
    computes no byte address: it is handed to the card driver as
    [size / sector_size] sectors from sector [lba]. *)
Theorem address_overflow_rejected (lba offset size : Z) (buf : ptr) :
  0 <= lba < 2 ^ 32 ->
  0 <= offset < 2 ^ 32 ->
  2 ^ 32 <= lba * ss \/ 2 ^ 32 <= lba * ss + offset ->
  msc_storage_write_sector drv lba offset size buf w = Done ESP_ERR_INVALID_SIZE w /\
  (read h = p_read_sector_spiflash ->
   msc_storage_read_sector drv lba offset size buf w = Done ESP_ERR_INVALID_SIZE w) /\
  (read h = p_read_sector_sdmmc ->
   forall c, backend h = card c -> ss <> 0 ->
   msc_storage_read_sector drv lba offset size buf w
   = Done (answer drv (calls w) (sdmmc_read_sectors c buf lba (size / ss)))
          (mk_world (Some h) (calls w ++ [sdmmc_read_sectors c buf lba (size / ss)]))).
Proof.
  intros Hl Ho Hov. split; [|split].
  - now apply (write_sector_overflow drv w h ss).
  - intros Hr. rewrite (msc_storage_read_sector_unfold drv w h ss Hh Hss), Hr.
    now apply (read_sector_spiflash_overflow drv w h ss).
  - intros Hr c Hb Hnz.
    rewrite (msc_storage_read_sector_unfold drv w h ss Hh Hss), Hr. simpl.
    rewrite (read_sector_sdmmc_value drv w h ss Hh c lba offset size buf Hb Hnz).
    unfold extern. rewrite Hh. reflexivity.
Qed.

(** C2, as amended.  A write whose address computation does not overflow,
    on a nonzero sector size, and whose address or size is not a multiple
    of the sector size, returns ESP_ERR_INVALID_ARG and leaves the world as
    it was: the backend write is not invoked. *)
Theorem misaligned_write_rejected (lba offset size : Z) (src : ptr) :
  0 <= lba < 2 ^ 32 ->
  0 <= offset < 2 ^ 32 ->
  ss <> 0 ->
  lba * ss + offset < 2 ^ 32 ->
  (lba * ss + offset) mod ss <> 0 \/ size mod ss <> 0 ->
  msc_storage_write_sector drv lba offset size src w = Done ESP_ERR_INVALID_ARG w.
Proof.
  intros Hl Ho Hnz Hfit Hmis.
  rewrite (msc_storage_write_sector_unfold drv w h ss Hh Hss).
  destruct (translation_fits drv w h ss Hh Hss lba offset Hl Ho Hfit) as [Hm Ha].
  rewrite Hm, Ha. unfold bind, umod, ret.
  apply Z.eqb_neq in Hnz. rewrite Hnz. cbv beta iota.
  destruct (Z.eqb_spec ((lba * ss + offset) mod ss) 0) as [Ea|Ea]; [|reflexivity].
  cbv beta iota. unfold negb at 1. cbv beta iota.
  destruct (Z.eqb_spec (size mod ss) 0) as [Es|Es]; [|reflexivity].
  destruct Hmis; contradiction.
Qed.

(** C3.  A read request is handed to the handle's read capability with the
    sector size and its own [lba], [offset], [size] and buffer, whatever
    their alignment; on the flash backend, when the address fits in 32
    bits, the wear-levelling read is called once with the address
    [lba * sector_size + offset] and the size as given, and its answer is
    the result. *)
Theorem read_not_alignment_checked (lba offset size : Z) (dest : ptr) :
  msc_storage_read_sector drv lba offset size dest w
  = call_read drv (read h) ss lba offset size dest w /\
  (forall x,
     read h = p_read_sector_spiflash -> backend h = wl_handle x ->
     0 <= lba < 2 ^ 32 -> 0 <= offset < 2 ^ 32 -> lba * ss + offset < 2 ^ 32 ->
     msc_storage_read_sector drv lba offset size dest w
     = Done (answer drv (calls w) (wl_read x (lba * ss + offset) dest size))
            (mk_world (Some h) (calls w ++ [wl_read x (lba * ss + offset) dest size]))).
Proof.
  pose proof (msc_storage_read_sector_unfold drv w h ss Hh Hss lba offset size dest) as E.
  split; [exact E|].
  intros x Hr Hb Hl Ho Hfit. rewrite E, Hr. simpl.
  rewrite (read_sector_spiflash_fits drv w h ss Hh Hss x lba offset size dest Hb Hl Ho Hfit).
  unfold extern. rewrite Hh. reflexivity.
Qed.

(** C6.  On the SD/MMC backend, with a nonzero sector size, the read and
    the write ask the card driver for [size / sector_size] sectors from
    sector [lba]; the quotient is the floor, so a trailing part of [size]
    shorter than a sector is dropped, and neither [offset] nor (for the
    write) the byte address [addr] appears in the call or in the result:
    any other [offset] and [addr] give the same outcome. *)
Theorem sdmmc_transfers_whole_sectors
        (c : option sdmmc_card_t) (addr lba offset size : Z) (buf : ptr) :
  backend h = card c ->
  0 < ss ->
  let n := size / ss in
  n * ss <= size < (n + 1) * ss /\
  (forall addr' offset',
     _read_sector_sdmmc drv ss lba offset' size buf w
     = _read_sector_sdmmc drv ss lba offset size buf w /\
     _write_sector_sdmmc drv ss addr' lba offset' size buf w
     = _write_sector_sdmmc drv ss addr lba offset size buf w) /\
  _read_sector_sdmmc drv ss lba offset size buf w
  = Done (answer drv (calls w) (sdmmc_read_sectors c buf lba n))
         (mk_world (Some h) (calls w ++ [sdmmc_read_sectors c buf lba n])) /\
  _write_sector_sdmmc drv ss addr lba offset size buf w
  = Done (answer drv (calls w) (sdmmc_write_sectors c buf lba n))
         (mk_world (Some h) (calls w ++ [sdmmc_write_sectors c buf lba n])).
Proof.
  intros Hb Hpos n.
  assert (Hnz : ss <> 0) by lia.
  split; [|split; [|split]].
  - subst n. pose proof (Z.mul_div_le size ss Hpos).
    pose proof (Z.mul_succ_div_gt size ss Hpos). lia.
  - intros addr' offset'. split; reflexivity.
  - rewrite (read_sector_sdmmc_value drv w h ss Hh c lba offset size buf Hb Hnz).
    unfold extern. rewrite Hh. reflexivity.
  - rewrite (write_sector_sdmmc_value drv w h ss Hh c addr lba offset size buf Hb Hnz).
    unfold extern. rewrite Hh. reflexivity.
Qed.

(** C4.  The flash write calls the erase of [size] bytes at [addr] first.
    If the erase answers an error, that error is the result and the erase
    is the only call made; otherwise the write of the same range follows
    and its answer is the result. *)
Theorem spiflash_write_erases_first
        (x : wl_handle_t) (sector_size addr lba offset size : Z) (src : ptr) :
  backend h = wl_handle x ->
  let erase := wl_erase_range x addr size in
  let err := answer drv (calls w) erase in
  (err <> ESP_OK ->
   _write_sector_spiflash drv sector_size addr lba offset size src w
   = Done err (mk_world (Some h) (calls w ++ [erase]))) /\
  (err = ESP_OK ->
   _write_sector_spiflash drv sector_size addr lba offset size src w
   = Done (answer drv (calls w ++ [erase]) (wl_write x addr src size))
          (mk_world (Some h) (calls w ++ [erase; wl_write x addr src size]))).
Proof.
  intros Hb erase err.
  assert (E : _write_sector_spiflash drv sector_size addr lba offset size src w
              = if negb (err =? ESP_OK)
                then Done err (mk_world (Some h) (calls w ++ [erase]))
                else Done (answer drv (calls w ++ [erase]) (wl_write x addr src size))
                          (mk_world (Some h)
                                    (calls w ++ [erase; wl_write x addr src size]))).
  { unfold _write_sector_spiflash. run. rewrite Hh. simpl. rewrite Hb.
    fold erase. fold err. rewrite Hh.
    destruct (negb (err =? ESP_OK)); [reflexivity|].
    simpl. rewrite Hb. simpl. rewrite <- app_assoc. reflexivity. }
  rewrite E. split; intros He.
  - apply Z.eqb_neq in He. rewrite He. reflexivity.
  - apply Z.eqb_eq in He. rewrite He. reflexivity.
Qed.

End TranslatorClaims.

Lemma address_overflow_rejected_witness :
  msc_storage_write_sector (sample_driver 512 ESP_OK) 0xFFFFFFFF 0 512 0x3000 flash_world
  = Done ESP_ERR_INVALID_SIZE flash_world /\
  msc_storage_read_sector (sample_driver 512 ESP_OK) 0xFFFFFFFF 0 512 0x3000 flash_world
  = Done ESP_ERR_INVALID_SIZE flash_world.
Proof.
  destruct (address_overflow_rejected (sample_driver 512 ESP_OK) flash_world _ 512
              eq_refl eq_refl 0xFFFFFFFF 0 512 0x3000) as (Hw & Hr & _);
    [lia | lia | left; lia | ].
  split; [exact Hw | exact (Hr eq_refl)].
Defined.

(** C1 as stated fails for a read on the SD/MMC backend: with 512-byte
    sectors and [lba = 0xFFFFFFFF] the product overflows, yet the read
    reaches the card driver and returns its answer. *)
Lemma sdmmc_read_overflow_reaches_card :
  tinyusb_msc_storage_get_sector_size (sample_driver 512 ESP_OK) sdmmc_world
  = Done 512 sdmmc_world /\
  2 ^ 32 <= 0xFFFFFFFF * 512 /\
  msc_storage_read_sector (sample_driver 512 ESP_OK) 0xFFFFFFFF 0 512 0x3000 sdmmc_world
  = Done ESP_OK
      (mk_world (s_storage_handle sdmmc_world)
                [sdmmc_read_sectors (Some sample_card) 0x3000 0xFFFFFFFF 1]) /\
  ESP_OK <> ESP_ERR_INVALID_SIZE.
Proof.
  split; [reflexivity|]. split; [vm_compute; discriminate|].
  split; [reflexivity | discriminate].
Qed.

Lemma misaligned_write_rejected_witness :
  msc_storage_write_sector (sample_driver 512 ESP_OK) 10 0 100 0x3000 flash_world
  = Done ESP_ERR_INVALID_ARG flash_world /\
  msc_storage_write_sector (sample_driver 512 ESP_OK) 10 7 512 0x3000 sdmmc_world
  = Done ESP_ERR_INVALID_ARG sdmmc_world.
Proof.
  split.
  - apply (misaligned_write_rejected (sample_driver 512 ESP_OK) flash_world _ 512
             eq_refl eq_refl 10 0 100 0x3000); try lia.
    right. vm_compute. discriminate.
  - apply (misaligned_write_rejected (sample_driver 512 ESP_OK) sdmmc_world _ 512
             eq_refl eq_refl 10 7 512 0x3000); try lia.
    left. vm_compute. discriminate.
Defined.

(** C2 as stated fails when the address computation overflows: the size
    100 is not a multiple of the sector size 512, yet the write returns
    ESP_ERR_INVALID_SIZE, the overflow being checked first. *)
Lemma misaligned_write_overflow_invalid_size :
  tinyusb_msc_storage_get_sector_size (sample_driver 512 ESP_OK) flash_world
  = Done 512 flash_world /\
  100 mod 512 <> 0 /\
  msc_storage_write_sector (sample_driver 512 ESP_OK) 0xFFFFFFFF 0 100 0x3000 flash_world
  = Done ESP_ERR_INVALID_SIZE flash_world /\
  ESP_ERR_INVALID_SIZE <> ESP_ERR_INVALID_ARG.
Proof.
  split; [reflexivity|]. split; [vm_compute; discriminate|].
  split; [reflexivity | discriminate].
Qed.

Lemma read_not_alignment_checked_witness :
  msc_storage_read_sector (sample_driver 512 ESP_OK) 10 7 100 0x3000 flash_world
  = Done ESP_OK (mk_world (s_storage_handle flash_world) [wl_read 1 5127 0x3000 100]).
Proof.
  apply (proj2 (read_not_alignment_checked (sample_driver 512 ESP_OK) flash_world _ 512
                  eq_refl eq_refl 10 7 100 0x3000)
               1 eq_refl eq_refl); lia.
Defined.

(** The same misaligned request as a write is refused. *)
Example write_is_alignment_checked :
  msc_storage_write_sector (sample_driver 512 ESP_OK) 10 7 100 0x3000 flash_world
  = Done ESP_ERR_INVALID_ARG flash_world.
Proof. reflexivity. Qed.

Lemma sdmmc_transfers_whole_sectors_witness :
  _read_sector_sdmmc (sample_driver 512 ESP_OK) 512 3 9 1300 0x3000 sdmmc_world
  = Done ESP_OK (mk_world (s_storage_handle sdmmc_world)
                          [sdmmc_read_sectors (Some sample_card) 0x3000 3 2]) /\
  _write_sector_sdmmc (sample_driver 512 ESP_OK) 512 1545 3 9 1300 0x3000 sdmmc_world
  = Done ESP_OK (mk_world (s_storage_handle sdmmc_world)
                          [sdmmc_write_sectors (Some sample_card) 0x3000 3 2]).
Proof.
  apply (proj2 (proj2 (sdmmc_transfers_whole_sectors
                         (sample_driver 512 ESP_OK) sdmmc_world _ 512 eq_refl
                         (Some sample_card) 1545 3 9 1300 0x3000 eq_refl ltac:(lia)))).
Defined.

Lemma spiflash_write_erases_first_witness :
  _write_sector_spiflash (sample_driver 512 ESP_FAIL) 512 5120 10 0 512 0x3000 flash_world
  = Done ESP_FAIL (mk_world (s_storage_handle flash_world) [wl_erase_range 1 5120 512]) /\
  _write_sector_spiflash (sample_driver 512 ESP_OK) 512 5120 10 0 512 0x3000 flash_world
  = Done ESP_OK (mk_world (s_storage_handle flash_world)
                          [wl_erase_range 1 5120 512; wl_write 1 5120 0x3000 512]).
Proof.
  split.
  - apply (proj1 (spiflash_write_erases_first (sample_driver 512 ESP_FAIL) flash_world _
                    eq_refl 1 512 5120 10 0 512 0x3000 eq_refl)).
    simpl. discriminate.
  - apply (proj2 (spiflash_write_erases_first (sample_driver 512 ESP_OK) flash_world _
                    eq_refl 1 512 5120 10 0 512 0x3000 eq_refl)).
    reflexivity.
Defined.

(** ** The command responder *)

Section Responder.

Variable drv : driver.
Variables (w w' : world).

Lemma read10_cb_value lun lba offset buffer bufsize err :
  msc_storage_read_sector drv lba offset bufsize buffer w = Done err w' ->
  tud_msc_read10_cb drv lun lba offset buffer bufsize w
  = Done (if err =? ESP_OK then int32_t bufsize else 0) w'.
Proof.
  intros E. unfold tud_msc_read10_cb, bind. rewrite E.
  destruct (err =? ESP_OK); reflexivity.
Qed.

Lemma write10_cb_value lun lba offset buffer bufsize err :
  msc_storage_write_sector drv lba offset bufsize buffer w = Done err w' ->
  tud_msc_write10_cb drv lun lba offset buffer bufsize w
  = Done (if err =? ESP_OK then int32_t bufsize else 0) w'.
Proof.
  intros E. unfold tud_msc_write10_cb, bind. rewrite E.
  destruct (err =? ESP_OK); reflexivity.
Qed.

(** C5, as amended.  When the storage operation returns [err], the Read10
    and the Write10 callback return 0 if [err] is an error, and if it is
    ESP_OK they return [bufsize] converted to their return type [int32_t];
    that value is [bufsize] itself whenever [bufsize] is below [2^31]. *)
Theorem rw10_cb_zero_on_error (lun lba offset : Z) (buffer : ptr) (bufsize : Z)
        (err : esp_err_t) :
  (msc_storage_read_sector drv lba offset bufsize buffer w = Done err w' ->
   tud_msc_read10_cb drv lun lba offset buffer bufsize w
   = Done (if err =? ESP_OK then int32_t bufsize else 0) w') /\
  (msc_storage_write_sector drv lba offset bufsize buffer w = Done err w' ->
   tud_msc_write10_cb drv lun lba offset buffer bufsize w
   = Done (if err =? ESP_OK then int32_t bufsize else 0) w') /\
  (0 <= bufsize < 2 ^ 31 -> int32_t bufsize = bufsize).
Proof.
  split; [|split].
  - apply read10_cb_value.
  - apply write10_cb_value.
  - apply int32_t_small.
Qed.

(** C10.  A generic SCSI command whose opcode is 0x1E (prevent/allow medium
    removal) is accepted without any effect and the callback returns 0.
    For any other opcode the sense condition is set to illegal request
    (0x05) / invalid command operation code (0x20, qualifier 0x00) for the
    command's [lun], and the callback returns a negative value. *)
Theorem scsi_cb_unsupported_command
        (lun opcode : Z) (rest : list Z) (buffer : ptr) (bufsize : Z) :
  (opcode = 0x1E ->
   tud_msc_scsi_cb drv lun (opcode :: rest) buffer bufsize w = Done 0 w) /\
  (opcode <> 0x1E ->
   exists r,
     tud_msc_scsi_cb drv lun (opcode :: rest) buffer bufsize w
     = Done r (mk_world (s_storage_handle w)
                        (calls w ++ [tud_msc_set_sense lun 0x05 0x20 0x00])) /\
     r < 0).
Proof.
  unfold tud_msc_scsi_cb. simpl. split; intros Hop.
  - subst opcode. reflexivity.
  - apply Z.eqb_neq in Hop.
    unfold SCSI_CMD_PREVENT_ALLOW_MEDIUM_REMOVAL. rewrite Hop.
    exists (-1). split; [reflexivity | lia].
Qed.

End Responder.

Lemma rw10_cb_zero_on_error_witness :
  tud_msc_read10_cb (sample_driver 512 ESP_OK) 0 10 0 0x3000 512 flash_world
  = Done (int32_t 512)
      (mk_world (s_storage_handle flash_world) [wl_read 1 5120 0x3000 512]) /\
  tud_msc_write10_cb (sample_driver 512 ESP_FAIL) 0 10 0 0x3000 0x80000000 flash_world
  = Done 0 (mk_world (s_storage_handle flash_world) [wl_erase_range 1 5120 0x80000000]) /\
  int32_t 512 = 512.
Proof.
  split; [|split].
  - apply (proj1 (rw10_cb_zero_on_error (sample_driver 512 ESP_OK) flash_world _
                    0 10 0 0x3000 512 ESP_OK)).
    reflexivity.
  - apply (proj1 (proj2 (rw10_cb_zero_on_error (sample_driver 512 ESP_FAIL) flash_world _
                           0 10 0 0x3000 0x80000000 ESP_FAIL))).
    reflexivity.
  - apply (proj2 (proj2 (rw10_cb_zero_on_error (sample_driver 512 ESP_OK) flash_world
                           flash_world 0 10 0 0x3000 512 ESP_OK))).
    lia.
Defined.

(** C5 as stated fails for a [bufsize] of [2^31] or more: the read
    succeeds and the callback returns the negative [int32_t] it converts
    to, not [bufsize]. *)
Lemma read10_cb_large_bufsize_negative :
  msc_storage_read_sector (sample_driver 512 ESP_OK) 0 0 0x80000000 0x3000 sdmmc_world
  = Done ESP_OK
      (mk_world (s_storage_handle sdmmc_world)
                [sdmmc_read_sectors (Some sample_card) 0x3000 0 4194304]) /\
  tud_msc_read10_cb (sample_driver 512 ESP_OK) 0 0 0 0x3000 0x80000000 sdmmc_world
  = Done (-2147483648)
      (mk_world (s_storage_handle sdmmc_world)
                [sdmmc_read_sectors (Some sample_card) 0x3000 0 4194304]) /\
  -2147483648 <> 0x80000000.
Proof. split; [reflexivity|]. split; [reflexivity | discriminate]. Qed.

Lemma scsi_cb_unsupported_command_witness :
  tud_msc_scsi_cb (sample_driver 512 ESP_OK) 0 [0x1E; 0; 0; 0; 1; 0] 0x3000 0 flash_world
  = Done 0 flash_world /\
  exists r,
    tud_msc_scsi_cb (sample_driver 512 ESP_OK) 0 [0x00; 0; 0; 0; 0; 0] 0x3000 0 flash_world
    = Done r (mk_world (s_storage_handle flash_world) [tud_msc_set_sense 0 0x05 0x20 0x00]) /\
    r < 0.
Proof.
  split.
  - apply (proj1 (scsi_cb_unsupported_command (sample_driver 512 ESP_OK) flash_world
                    0 0x1E [0; 0; 0; 1; 0] 0x3000 0)).
    reflexivity.
  - apply (proj2 (scsi_cb_unsupported_command (sample_driver 512 ESP_OK) flash_world
                    0 0x00 [0; 0; 0; 0; 0] 0x3000 0)).
    discriminate.
Defined.

(** ** Callback registration *)

Section Callbacks.

Variables (w : world) (h : tinyusb_msc_storage_handle_s).
Hypothesis Hh : s_storage_handle w = Some h.

(** C7.  With an event kind other than mount_changed and premount_changed,
    registering and unregistering return ESP_ERR_INVALID_ARG and leave the
    world, hence every field of the handle, as it was.  With a recognised
    kind they return ESP_OK and the handle differs from the old one in the
    corresponding callback field only, which holds the callback given,
    respectively NULL. *)
Theorem callback_registration (event_type : tinyusb_msc_event_type_t)
        (callback : tusb_msc_callback_t) :
  (event_type <> TINYUSB_MSC_EVENT_MOUNT_CHANGED ->
   event_type <> TINYUSB_MSC_EVENT_PREMOUNT_CHANGED ->
   tinyusb_msc_register_callback event_type callback w = Done ESP_ERR_INVALID_ARG w /\
   tinyusb_msc_unregister_callback event_type w = Done ESP_ERR_INVALID_ARG w) /\
  tinyusb_msc_register_callback TINYUSB_MSC_EVENT_MOUNT_CHANGED callback w
  = Done ESP_OK
      (mk_world (Some (mk_handle (backend h) (sector_count h) (sector_size h) (read h)
                                 (write h) callback (callback_premount_changed h)
                                 (max_files h)))
                (calls w)) /\
  tinyusb_msc_register_callback TINYUSB_MSC_EVENT_PREMOUNT_CHANGED callback w
  = Done ESP_OK
      (mk_world (Some (mk_handle (backend h) (sector_count h) (sector_size h) (read h)
                                 (write h) (callback_mount_changed h) callback
                                 (max_files h)))
                (calls w)) /\
  tinyusb_msc_unregister_callback TINYUSB_MSC_EVENT_MOUNT_CHANGED w
  = Done ESP_OK
      (mk_world (Some (mk_handle (backend h) (sector_count h) (sector_size h) (read h)
                                 (write h) NULL (callback_premount_changed h)
                                 (max_files h)))
                (calls w)) /\
  tinyusb_msc_unregister_callback TINYUSB_MSC_EVENT_PREMOUNT_CHANGED w
  = Done ESP_OK
      (mk_world (Some (mk_handle (backend h) (sector_count h) (sector_size h) (read h)
                                 (write h) (callback_mount_changed h) NULL
                                 (max_files h)))
                (calls w)).
Proof.
  unfold tinyusb_msc_register_callback, tinyusb_msc_unregister_callback.
  split; [|repeat split; run; rewrite Hh; simpl; rewrite Hh; reflexivity].
  intros Hm Hp. apply Z.eqb_neq in Hm, Hp.
  split; run; rewrite Hh, Hm, Hp; reflexivity.
Qed.

End Callbacks.

Lemma callback_registration_witness :
  tinyusb_msc_register_callback 2 0x4000 sdmmc_world = Done ESP_ERR_INVALID_ARG sdmmc_world /\
  tinyusb_msc_unregister_callback 2 sdmmc_world = Done ESP_ERR_INVALID_ARG sdmmc_world.
Proof.
  apply (proj1 (callback_registration sdmmc_world _ eq_refl 2 0x4000)); discriminate.
Defined.

(** * Further properties *)

(** ** Life cycle of the handle *)

Lemma world_eta (w : world) : mk_world (s_storage_handle w) (calls w) = w.
Proof. destruct w; reflexivity. Qed.

Section LifeCycle.

Variable drv : driver.
Variable w : world.
Hypothesis Hnone : s_storage_handle w = None.

Lemma world_without_handle : w = mk_world None (calls w).
Proof. rewrite <- Hnone. symmetry. apply world_eta. Qed.

(** X1.  With no handle yet and a successful allocation, the flash init
    returns ESP_OK without calling any collaborator and leaves a handle
    that does not depend on the content of the fresh block: the four flash
    capabilities, the wear-levelling handle and the two callbacks of the
    configuration, and a positive [max_files] (2 when the configured value
    is not positive).  The wear-levelling handle is not checked: the handle
    is usable exactly when it is not WL_INVALID_HANDLE. *)
Theorem init_spiflash_binds (junk : tinyusb_msc_storage_handle_s)
        (config : tinyusb_msc_spiflash_config_t) :
  malloc drv = Some junk ->
  let h := mk_handle (wl_handle (cfg_wl_handle config))
                     p_get_sector_count_spiflash p_get_sector_size_spiflash
                     p_read_sector_spiflash p_write_sector_spiflash
                     (cfg_flash_callback_mount_changed config)
                     (cfg_flash_callback_premount_changed config)
                     (if cfg_flash_max_files config >? 0
                      then cfg_flash_max_files config else 2) in
  tinyusb_msc_storage_init_spiflash drv config w
  = Done ESP_OK (mk_world (Some h) (calls w)) /\
  0 < max_files h /\
  handle_bound h = negb (cfg_wl_handle config =? WL_INVALID_HANDLE).
Proof.
  intros Hm h. split; [|split].
  - rewrite world_without_handle at 1.
    apply (init_spiflash_value drv junk Hm).
  - subst h. simpl.
    destruct (Z.gtb_spec (cfg_flash_max_files config) 0); lia.
  - reflexivity.
Qed.

(** X2.  With no handle yet and a successful allocation, the SD/MMC init
    returns ESP_OK without calling any collaborator and leaves a handle
    that does not depend on the content of the fresh block: the four
    SD/MMC capabilities, the card pointer and the two callbacks of the
    configuration, and a positive [max_files].  The card pointer is not
    checked: the handle is usable exactly when it is not null. *)
Theorem init_sdmmc_binds (junk : tinyusb_msc_storage_handle_s)
        (config : tinyusb_msc_sdmmc_config_t) :
  malloc drv = Some junk ->
  let h := mk_handle (card (cfg_card config))
                     p_get_sector_count_sdmmc p_get_sector_size_sdmmc
                     p_read_sector_sdmmc p_write_sector_sdmmc
                     (cfg_sdmmc_callback_mount_changed config)
                     (cfg_sdmmc_callback_premount_changed config)
                     (if cfg_sdmmc_max_files config >? 0
                      then cfg_sdmmc_max_files config else 2) in
  tinyusb_msc_storage_init_sdmmc drv config w
  = Done ESP_OK (mk_world (Some h) (calls w)) /\
  0 < max_files h /\
  handle_bound h = match cfg_card config with Some _ => true | None => false end.
Proof.
  intros Hm h. split; [|split].
  - rewrite world_without_handle at 1.
    apply (init_sdmmc_value drv junk Hm).
  - subst h. simpl.
    destruct (Z.gtb_spec (cfg_sdmmc_max_files config) 0); lia.
  - subst h. unfold handle_bound. simpl. destruct (cfg_card config); reflexivity.
Qed.

(** X3.  When the allocation fails, both init functions return
    ESP_ERR_NO_MEM and the world is as before: there is still no handle and
    no collaborator was called. *)
Theorem init_no_memory (c1 : tinyusb_msc_spiflash_config_t)
        (c2 : tinyusb_msc_sdmmc_config_t) :
  malloc drv = None ->
  tinyusb_msc_storage_init_spiflash drv c1 w = Done ESP_ERR_NO_MEM w /\
  tinyusb_msc_storage_init_sdmmc drv c2 w = Done ESP_ERR_NO_MEM w.
Proof.
  intros Hm. rewrite world_without_handle.
  unfold tinyusb_msc_storage_init_spiflash, tinyusb_msc_storage_init_sdmmc.
  cbv beta iota zeta delta
    [bind assert_no_handle set_s_storage_handle the_handle s_storage_handle calls].
  rewrite Hm. split; reflexivity.
Qed.

(** X4.  After a successful init of either kind, a second init of either
    kind stops at [assert(!s_storage_handle)]: the first handle is never
    overwritten. *)
Theorem second_init_asserts (junk : tinyusb_msc_storage_handle_s)
        (c1 c1' : tinyusb_msc_spiflash_config_t)
        (c2 c2' : tinyusb_msc_sdmmc_config_t) :
  malloc drv = Some junk ->
  (tinyusb_msc_storage_init_spiflash drv c1 ;;;
   tinyusb_msc_storage_init_spiflash drv c1') w = Stop assert_failed /\
  (tinyusb_msc_storage_init_spiflash drv c1 ;;;
   tinyusb_msc_storage_init_sdmmc drv c2') w = Stop assert_failed /\
  (tinyusb_msc_storage_init_sdmmc drv c2 ;;;
   tinyusb_msc_storage_init_spiflash drv c1') w = Stop assert_failed /\
  (tinyusb_msc_storage_init_sdmmc drv c2 ;;;
   tinyusb_msc_storage_init_sdmmc drv c2') w = Stop assert_failed.
Proof.
  intros Hm. rewrite world_without_handle. unfold bind.
  rewrite (init_spiflash_value drv junk Hm), (init_sdmmc_value drv junk Hm).
  repeat split; reflexivity.
Qed.

(** X5.  An init followed by a deinit gives back the world it started
    from, so that an init can follow again. *)
Theorem init_deinit_round_trip (junk : tinyusb_msc_storage_handle_s)
        (c1 : tinyusb_msc_spiflash_config_t) (c2 : tinyusb_msc_sdmmc_config_t) :
  malloc drv = Some junk ->
  (tinyusb_msc_storage_init_spiflash drv c1 ;;; tinyusb_msc_storage_deinit) w
  = Done tt w /\
  (tinyusb_msc_storage_init_sdmmc drv c2 ;;; tinyusb_msc_storage_deinit) w
  = Done tt w.
Proof.
  intros Hm. rewrite world_without_handle. unfold bind.
  rewrite (init_spiflash_value drv junk Hm), (init_sdmmc_value drv junk Hm).
  split; reflexivity.
Qed.

(** X6.  Without a handle, every operation that goes through the handle
    stops at its assertion: the geometry getters, read and write, the
    capacity, Read10 and Write10 callbacks, the callback registration and
    the deinit. *)
Theorem no_handle_asserts (lun lba offset size : Z) (buf : ptr)
        (event_type : tinyusb_msc_event_type_t) (callback : tusb_msc_callback_t) :
  tinyusb_msc_storage_get_sector_count drv w = Stop assert_failed /\
  tinyusb_msc_storage_get_sector_size drv w = Stop assert_failed /\
  msc_storage_read_sector drv lba offset size buf w = Stop assert_failed /\
  msc_storage_write_sector drv lba offset size buf w = Stop assert_failed /\
  tud_msc_capacity_cb drv lun w = Stop assert_failed /\
  tud_msc_read10_cb drv lun lba offset buf size w = Stop assert_failed /\
  tud_msc_write10_cb drv lun lba offset buf size w = Stop assert_failed /\
  tinyusb_msc_register_callback event_type callback w = Stop assert_failed /\
  tinyusb_msc_unregister_callback event_type w = Stop assert_failed /\
  tinyusb_msc_storage_deinit w = Stop assert_failed.
Proof.
  unfold tinyusb_msc_storage_get_sector_count, tinyusb_msc_storage_get_sector_size,
    msc_storage_read_sector, msc_storage_write_sector, tud_msc_capacity_cb,
    tud_msc_read10_cb, tud_msc_write10_cb, tinyusb_msc_register_callback,
    tinyusb_msc_unregister_callback, tinyusb_msc_storage_deinit,
    msc_storage_read_sector, msc_storage_write_sector,
    tinyusb_msc_storage_get_sector_count, bind, assert_handle.
  rewrite Hnone. repeat split; reflexivity.
Qed.

End LifeCycle.

Lemma init_spiflash_binds_witness :
  tinyusb_msc_storage_init_spiflash (sample_driver 512 ESP_OK)
    (mk_spiflash_config 1 0x4000 NULL (-3)) boot
  = Done ESP_OK
      (mk_world (Some (mk_handle (wl_handle 1) p_get_sector_count_spiflash
                                 p_get_sector_size_spiflash p_read_sector_spiflash
                                 p_write_sector_spiflash 0x4000 NULL 2)) []).
Proof.
  exact (proj1 (init_spiflash_binds (sample_driver 512 ESP_OK) boot eq_refl fresh_block
                  (mk_spiflash_config 1 0x4000 NULL (-3)) eq_refl)).
Defined.

Lemma init_sdmmc_binds_witness :
  tinyusb_msc_storage_init_sdmmc (sample_driver 512 ESP_OK)
    (mk_sdmmc_config (Some sample_card) NULL 0x4000 5) boot
  = Done ESP_OK
      (mk_world (Some (mk_handle (card (Some sample_card)) p_get_sector_count_sdmmc
                                 p_get_sector_size_sdmmc p_read_sector_sdmmc
                                 p_write_sector_sdmmc NULL 0x4000 5)) []).
Proof.
  exact (proj1 (init_sdmmc_binds (sample_driver 512 ESP_OK) boot eq_refl fresh_block
                  (mk_sdmmc_config (Some sample_card) NULL 0x4000 5) eq_refl)).
Defined.

(** A driver whose allocation fails. *)
Lemma init_no_memory_witness :
  tinyusb_msc_storage_init_spiflash
    (mk_driver (fun _ => 512) (fun _ => 1048576) (fun _ _ => ESP_OK) None)
    (mk_spiflash_config 1 NULL NULL 0) boot
  = Done ESP_ERR_NO_MEM boot.
Proof.
  exact (proj1 (init_no_memory
                  (mk_driver (fun _ => 512) (fun _ => 1048576) (fun _ _ => ESP_OK) None)
                  boot eq_refl (mk_spiflash_config 1 NULL NULL 0)
                  (mk_sdmmc_config None NULL NULL 0) eq_refl)).
Defined.

Lemma second_init_asserts_witness :
  (tinyusb_msc_storage_init_spiflash (sample_driver 512 ESP_OK)
     (mk_spiflash_config 1 NULL NULL 0) ;;;
   tinyusb_msc_storage_init_sdmmc (sample_driver 512 ESP_OK)
     (mk_sdmmc_config (Some sample_card) NULL NULL 0)) boot
  = Stop assert_failed.
Proof.
  exact (proj1 (proj2 (second_init_asserts (sample_driver 512 ESP_OK) boot eq_refl
                         fresh_block
                         (mk_spiflash_config 1 NULL NULL 0)
                         (mk_spiflash_config 1 NULL NULL 0)
                         (mk_sdmmc_config (Some sample_card) NULL NULL 0)
                         (mk_sdmmc_config (Some sample_card) NULL NULL 0) eq_refl))).
Defined.

Lemma init_deinit_round_trip_witness :
  (tinyusb_msc_storage_init_sdmmc (sample_driver 512 ESP_OK)
     (mk_sdmmc_config (Some sample_card) NULL NULL 0) ;;;
   tinyusb_msc_storage_deinit) boot
  = Done tt boot.
Proof.
  exact (proj2 (init_deinit_round_trip (sample_driver 512 ESP_OK) boot eq_refl
                  fresh_block (mk_spiflash_config 1 NULL NULL 0)
                  (mk_sdmmc_config (Some sample_card) NULL NULL 0) eq_refl)).
Defined.

Lemma no_handle_asserts_witness :
  tud_msc_read10_cb (sample_driver 512 ESP_OK) 0 10 0 0x3000 512 boot
  = Stop assert_failed.
Proof.
  exact (proj1 (proj2 (proj2 (proj2 (proj2 (proj2
           (no_handle_asserts (sample_driver 512 ESP_OK) boot eq_refl
                              0 10 0 512 0x3000 0 NULL))))))).
Defined.

(** ** Geometry *)

Section GeometryMore.

Variable drv : driver.
Variable w : world.

(** The world and the range of the value after a geometry getter. *)
Lemma geometry_getters_world (v : Z) (w' : world) :
  tinyusb_msc_storage_get_sector_count drv w = Done v w' \/
  tinyusb_msc_storage_get_sector_size drv w = Done v w' ->
  w' = w /\ 0 <= v < 2 ^ 32.
Proof.
  unfold tinyusb_msc_storage_get_sector_count, tinyusb_msc_storage_get_sector_size,
    call_sector_count, call_sector_size, _get_sector_count_spiflash,
    _get_sector_size_spiflash, _get_sector_count_sdmmc, _get_sector_size_sdmmc.
  run.
  destruct (s_storage_handle w) as [h|] eqn:Hh; simpl;
    [|intros [E|E]; discriminate].
  rewrite Hh. simpl.
  intros [E|E].
  - destruct (sector_count h); rewrite ?Hh in E; simpl in E;
      destruct (backend h) as [x|[c|]]; try discriminate.
    + destruct (negb (x =? WL_INVALID_HANDLE)); [|discriminate]. simpl in E.
      destruct (size_t (wl_sector_size drv x) =? 0); simpl in E.
      * inversion E; subst. split; [reflexivity|]. split; [lia|reflexivity].
      * inversion E; subst. split; [reflexivity | apply uint32_t_range].
    + inversion E; subst. split; [reflexivity | apply uint32_t_range].
  - destruct (sector_size h); rewrite ?Hh in E; simpl in E;
      destruct (backend h) as [x|[c|]]; try discriminate.
    + destruct (negb (x =? WL_INVALID_HANDLE)); [|discriminate]. simpl in E.
      inversion E; subst. split; [reflexivity | apply uint32_t_range].
    + inversion E; subst. split; [reflexivity | apply uint32_t_range].
Qed.

(** X7.  The two geometry getters, when they return, have left the handle
    untouched and have not read, erased or written the backing store (on
    flash they only query the wear-levelling library for its sizes); the
    value is a [uint32_t]. *)
Theorem geometry_getters_pure (v : Z) (w' : world) :
  tinyusb_msc_storage_get_sector_count drv w = Done v w' \/
  tinyusb_msc_storage_get_sector_size drv w = Done v w' ->
  s_storage_handle w' = s_storage_handle w /\
  (exists l, calls w' = calls w ++ l /\ List.filter is_medium_io l = []) /\
  0 <= v < 2 ^ 32.
Proof.
  intros H. destruct (geometry_getters_world v w' H) as [-> Hv].
  split; [reflexivity|]. split; [|exact Hv].
  exists []. split; [symmetry; apply List.app_nil_r | reflexivity].
Qed.

End GeometryMore.

Lemma geometry_getters_pure_witness :
  s_storage_handle flash_world = s_storage_handle flash_world /\
  (exists l, calls flash_world = calls flash_world ++ l /\
             List.filter is_medium_io l = []) /\
  0 <= 2048 < 2 ^ 32.
Proof.
  apply (geometry_getters_pure (sample_driver 512 ESP_OK) flash_world 2048 flash_world).
  left. reflexivity.
Defined.

Section GeometryBackends.

Variable drv : driver.
Variables (w : world) (h : tinyusb_msc_storage_handle_s).
Hypothesis Hh : s_storage_handle w = Some h.

(** X8.  On the SD/MMC backend the sector count and the sector size are
    the card's [csd.capacity] and [csd.sector_size] converted to
    [uint32_t] (a negative [int] wraps around); with a null card pointer
    both getters stop at [assert(s_storage_handle->card)]. *)
Theorem sdmmc_geometry (c : option sdmmc_card_t) :
  backend h = card c ->
  sector_count h = p_get_sector_count_sdmmc ->
  sector_size h = p_get_sector_size_sdmmc ->
  match c with
  | Some cd =>
      tinyusb_msc_storage_get_sector_count drv w = Done (csd_capacity cd mod 2 ^ 32) w /\
      tinyusb_msc_storage_get_sector_size drv w = Done (csd_sector_size cd mod 2 ^ 32) w
  | None =>
      tinyusb_msc_storage_get_sector_count drv w = Stop assert_failed /\
      tinyusb_msc_storage_get_sector_size drv w = Stop assert_failed
  end.
Proof.
  intros Hb Hc Hs.
  rewrite (storage_get_sector_count_unfold drv w h Hh),
          (storage_get_sector_size_unfold drv w h Hh), Hc, Hs. simpl.
  unfold _get_sector_count_sdmmc, _get_sector_size_sdmmc, bind.
  rewrite (get_card_bound w h Hh c Hb).
  destruct c; split; reflexivity.
Qed.

(** X9.  On the flash backend with a valid wear-levelling handle, the
    sector size is the one the wear-levelling layer reports, and the
    capacity announced, sector count times sector size, never exceeds the
    size of the partition; with a nonzero sector size less than one sector
    of the partition is left out. *)
Theorem spiflash_capacity_within_partition (x : wl_handle_t) :
  backend h = wl_handle x ->
  x <> WL_INVALID_HANDLE ->
  sector_count h = p_get_sector_count_spiflash ->
  sector_size h = p_get_sector_size_spiflash ->
  0 <= wl_sector_size drv x < 2 ^ 32 ->
  0 <= wl_size drv x < 2 ^ 32 ->
  exists c,
    tinyusb_msc_storage_get_sector_count drv w = Done c w /\
    tinyusb_msc_storage_get_sector_size drv w = Done (wl_sector_size drv x) w /\
    0 <= c /\
    c * wl_sector_size drv x <= wl_size drv x /\
    (wl_sector_size drv x <> 0 -> wl_size drv x < (c + 1) * wl_sector_size drv x).
Proof.
  intros Hb Hx Hc Hs Hss Hsz.
  rewrite (storage_get_sector_count_unfold drv w h Hh),
          (storage_get_sector_size_unfold drv w h Hh), Hc, Hs. simpl.
  rewrite (get_sector_count_spiflash_value drv w h Hh x Hb Hx),
          (get_sector_size_spiflash_value drv w h Hh x Hb Hx).
  rewrite (size_t_small _ Hss), (size_t_small _ Hsz), (uint32_t_small _ Hss).
  eexists. split; [reflexivity|]. split; [reflexivity|].
  destruct (Z.eqb_spec (wl_sector_size drv x) 0) as [E|E].
  - rewrite E. repeat split; try lia.
  - assert (Hpos : 0 < wl_sector_size drv x) by lia.
    assert (Hq : 0 <= wl_size drv x / wl_sector_size drv x < 2 ^ 32).
    { split; [apply Z.div_pos; lia | apply Z.div_lt_upper_bound; nia]. }
    rewrite (uint32_t_small _ Hq).
    pose proof (Z.mul_div_le (wl_size drv x) (wl_sector_size drv x) Hpos).
    pose proof (Z.mul_succ_div_gt (wl_size drv x) (wl_sector_size drv x) Hpos).
    repeat split; try lia.
Qed.

(** X10.  A flash handle bound to WL_INVALID_HANDLE (the init does not
    refuse it) stops every operation that needs the geometry at the
    assertion on the wear-levelling handle: the getters, the capacity
    callback, read and write. *)
Theorem spiflash_invalid_handle_asserts (lun lba offset size : Z) (buf : ptr) :
  backend h = wl_handle WL_INVALID_HANDLE ->
  sector_count h = p_get_sector_count_spiflash ->
  sector_size h = p_get_sector_size_spiflash ->
  tinyusb_msc_storage_get_sector_count drv w = Stop assert_failed /\
  tinyusb_msc_storage_get_sector_size drv w = Stop assert_failed /\
  tud_msc_capacity_cb drv lun w = Stop assert_failed /\
  msc_storage_read_sector drv lba offset size buf w = Stop assert_failed /\
  msc_storage_write_sector drv lba offset size buf w = Stop assert_failed /\
  tud_msc_read10_cb drv lun lba offset buf size w = Stop assert_failed /\
  tud_msc_write10_cb drv lun lba offset buf size w = Stop assert_failed.
Proof.
  intros Hb Hc Hs.
  assert (Ec : tinyusb_msc_storage_get_sector_count drv w = Stop assert_failed).
  { rewrite (storage_get_sector_count_unfold drv w h Hh), Hc. simpl.
    unfold _get_sector_count_spiflash, bind.
    rewrite (get_wl_handle_bound w h Hh _ Hb). reflexivity. }
  assert (Es : tinyusb_msc_storage_get_sector_size drv w = Stop assert_failed).
  { rewrite (storage_get_sector_size_unfold drv w h Hh), Hs. simpl.
    unfold _get_sector_size_spiflash, bind.
    rewrite (get_wl_handle_bound w h Hh _ Hb). reflexivity. }
  assert (Er : forall sz, msc_storage_read_sector drv lba offset sz buf w
                          = Stop assert_failed).
  { intros sz. unfold msc_storage_read_sector, bind, assert_handle.
    rewrite Hh, Es. reflexivity. }
  assert (Ew : forall sz, msc_storage_write_sector drv lba offset sz buf w
                          = Stop assert_failed).
  { intros sz. unfold msc_storage_write_sector, bind, assert_handle.
    rewrite Hh, Es. reflexivity. }
  repeat split; try assumption.
  - unfold tud_msc_capacity_cb, bind. rewrite Ec. reflexivity.
  - apply Er.
  - apply Ew.
  - unfold tud_msc_read10_cb, bind. rewrite Er. reflexivity.
  - unfold tud_msc_write10_cb, bind. rewrite Ew. reflexivity.
Qed.

End GeometryBackends.

Lemma sdmmc_geometry_witness :
  tinyusb_msc_storage_get_sector_count (sample_driver 512 ESP_OK) sdmmc_world
  = Done (15523840 mod 2 ^ 32) sdmmc_world /\
  tinyusb_msc_storage_get_sector_size (sample_driver 512 ESP_OK) sdmmc_world
  = Done (512 mod 2 ^ 32) sdmmc_world.
Proof.
  exact (sdmmc_geometry (sample_driver 512 ESP_OK) sdmmc_world _ eq_refl
           (Some sample_card) eq_refl eq_refl eq_refl).
Defined.

Lemma spiflash_capacity_within_partition_witness :
  exists c,
    tinyusb_msc_storage_get_sector_count (sample_driver 4096 ESP_OK) flash_world
    = Done c flash_world /\
    tinyusb_msc_storage_get_sector_size (sample_driver 4096 ESP_OK) flash_world
    = Done 4096 flash_world /\
    0 <= c /\ c * 4096 <= 1048576 /\ (4096 <> 0 -> 1048576 < (c + 1) * 4096).
Proof.
  apply (spiflash_capacity_within_partition (sample_driver 4096 ESP_OK) flash_world _
           eq_refl 1 eq_refl); simpl; try reflexivity; try lia. discriminate.
Defined.

Lemma spiflash_invalid_handle_asserts_witness :
  tud_msc_capacity_cb (sample_driver 512 ESP_OK) 0
    (world_after (tinyusb_msc_storage_init_spiflash (sample_driver 512 ESP_OK)
                    (mk_spiflash_config WL_INVALID_HANDLE NULL NULL 0) boot))
  = Stop assert_failed.
Proof.
  exact (proj1 (proj2 (proj2
           (spiflash_invalid_handle_asserts (sample_driver 512 ESP_OK)
              (world_after (tinyusb_msc_storage_init_spiflash (sample_driver 512 ESP_OK)
                              (mk_spiflash_config WL_INVALID_HANDLE NULL NULL 0) boot))
              _ eq_refl 0 0 0 0 0 eq_refl eq_refl eq_refl)))).
Defined.

(** ** What a read and a write can do *)

Section Frames.

Variable drv : driver.
Variable w : world.

Lemma write_sector_spiflash_value h x sector_size addr lba offset size src :
  s_storage_handle w = Some h ->
  backend h = wl_handle x ->
  _write_sector_spiflash drv sector_size addr lba offset size src w
  = if answer drv (calls w) (wl_erase_range x addr size) =? ESP_OK
    then Done (answer drv (calls w ++ [wl_erase_range x addr size])
                      (wl_write x addr src size))
              (mk_world (Some h)
                        (calls w ++ [wl_erase_range x addr size;
                                     wl_write x addr src size]))
    else Done (answer drv (calls w) (wl_erase_range x addr size))
              (mk_world (Some h) (calls w ++ [wl_erase_range x addr size])).
Proof.
  intros Hh Hb. unfold _write_sector_spiflash. run. rewrite Hh. simpl. rewrite Hb.
  rewrite Hh.
  destruct (answer drv (calls w) (wl_erase_range x addr size) =? ESP_OK);
    [|reflexivity].
  simpl. rewrite Hb. simpl. rewrite <- app_assoc. reflexivity.
Qed.

Ltac same_handle :=
  first [reflexivity | assumption | symmetry; assumption | congruence].

Lemma read_sector_cases lba offset size dest r w' :
  msc_storage_read_sector drv lba offset size dest w = Done r w' ->
  s_storage_handle w' = s_storage_handle w /\
  ((calls w' = calls w /\ r = ESP_ERR_INVALID_SIZE) \/
   (exists c, calls w' = calls w ++ [c] /\ is_read_primitive c = true /\
              r = answer drv (calls w) c)).
Proof.
  destruct (s_storage_handle w) as [h|] eqn:Hh;
    [|unfold msc_storage_read_sector, bind, assert_handle; rewrite Hh; discriminate].
  destruct (tinyusb_msc_storage_get_sector_size drv w) as [ss w1|f] eqn:Hss;
    [|unfold msc_storage_read_sector, bind, assert_handle; rewrite Hh, Hss;
      discriminate].
  destruct (storage_get_sector_size_pure drv w h Hh ss w1 Hss) as [-> _].
  rewrite (msc_storage_read_sector_unfold drv w h ss Hh Hss).
  destruct (read h); simpl.
  - unfold _read_sector_spiflash.
    destruct (__builtin_umul_overflow lba ss) as [[|] temp].
    { intros E; inversion E; subst. rewrite Hh. split; [same_handle|]. left. split; reflexivity. }
    destruct (__builtin_uadd_overflow temp offset) as [[|] addr].
    { intros E; inversion E; subst. rewrite Hh. split; [same_handle|]. left. split; reflexivity. }
    run. rewrite Hh. simpl. destruct (backend h) as [x|c]; [|discriminate].
    intros E; inversion E; subst. simpl. split; [same_handle|]. right.
    eexists. repeat split.
  - unfold _read_sector_sdmmc. run. rewrite Hh. simpl.
    destruct (backend h) as [x|c]; [discriminate|].
    destruct (ss =? 0); [discriminate|].
    intros E; inversion E; subst. simpl. split; [same_handle|]. right.
    eexists. repeat split.
Qed.

Lemma write_sector_cases lba offset size src r w' :
  msc_storage_write_sector drv lba offset size src w = Done r w' ->
  s_storage_handle w' = s_storage_handle w /\
  ((calls w' = calls w /\ (r = ESP_ERR_INVALID_SIZE \/ r = ESP_ERR_INVALID_ARG)) \/
   (exists x a,
      calls w' = calls w ++ [wl_erase_range x a size] /\
      r = answer drv (calls w) (wl_erase_range x a size) /\ r <> ESP_OK) \/
   (exists x a,
      calls w' = calls w ++ [wl_erase_range x a size; wl_write x a src size] /\
      answer drv (calls w) (wl_erase_range x a size) = ESP_OK /\
      r = answer drv (calls w ++ [wl_erase_range x a size]) (wl_write x a src size)) \/
   (exists c n,
      calls w' = calls w ++ [sdmmc_write_sectors c src lba n] /\
      r = answer drv (calls w) (sdmmc_write_sectors c src lba n))).
Proof.
  destruct (s_storage_handle w) as [h|] eqn:Hh;
    [|unfold msc_storage_write_sector, bind, assert_handle; rewrite Hh; discriminate].
  destruct (tinyusb_msc_storage_get_sector_size drv w) as [ss w1|f] eqn:Hss;
    [|unfold msc_storage_write_sector, bind, assert_handle; rewrite Hh, Hss;
      discriminate].
  destruct (storage_get_sector_size_pure drv w h Hh ss w1 Hss) as [-> _].
  rewrite (msc_storage_write_sector_unfold drv w h ss Hh Hss).
  destruct (__builtin_umul_overflow lba ss) as [[|] temp].
  { intros E; inversion E; subst. rewrite Hh. split; [same_handle|]. left. auto. }
  destruct (__builtin_uadd_overflow temp offset) as [[|] addr].
  { intros E; inversion E; subst. rewrite Hh. split; [same_handle|]. left. auto. }
  unfold bind at 1, umod at 1.
  destruct (ss =? 0) eqn:Hz; [discriminate|]. unfold ret at 1.
  destruct (negb (addr mod ss =? 0)).
  { intros E; inversion E; subst. rewrite Hh. split; [same_handle|]. left. auto. }
  unfold bind at 1, umod at 1. rewrite Hz. unfold ret at 1.
  destruct (negb (size mod ss =? 0)).
  { intros E; inversion E; subst. rewrite Hh. split; [same_handle|]. left. auto. }
  destruct (write h); simpl.
  - destruct (backend h) as [x|c] eqn:Hb.
    + rewrite (write_sector_spiflash_value h x ss addr lba offset size src Hh Hb).
      destruct (Z.eqb_spec (answer drv (calls w) (wl_erase_range x addr size)) ESP_OK)
        as [Ee|Ee]; intros E; inversion E; subst; simpl;
        (split; [same_handle|]).
      * right. right. left. exists x, addr. repeat split. assumption.
      * right. left. exists x, addr. repeat split. assumption.
    + unfold _write_sector_spiflash. run. rewrite Hh. simpl. rewrite Hb. discriminate.
  - unfold _write_sector_sdmmc. run. rewrite Hh. simpl.
    destruct (backend h) as [x|c]; [discriminate|]. rewrite Hz.
    intros E; inversion E; subst. simpl. split; [same_handle|].
    right. right. right. eexists _, _. split; reflexivity.
Qed.

(** X11.  A read that returns has left the handle untouched, has erased
    and written nothing, and has read the backing store at most once:
    either not at all, and the result is ESP_ERR_INVALID_SIZE, or exactly
    once (wl_read or sdmmc_read_sectors), and the result is the answer of
    that read. *)
Theorem read_only_reads (lba offset size : Z) (dest : ptr) (r : esp_err_t) (w' : world) :
  msc_storage_read_sector drv lba offset size dest w = Done r w' ->
  s_storage_handle w' = s_storage_handle w /\
  exists l,
    calls w' = calls w ++ l /\
    List.Forall (fun c => is_erase_primitive c = false /\ is_write_primitive c = false) l /\
    ((List.filter is_read_primitive l = [] /\ r = ESP_ERR_INVALID_SIZE) \/
     (exists c, List.filter is_read_primitive l = [c] /\ r = answer drv (calls w) c)).
Proof.
  intros E.
  destruct (read_sector_cases lba offset size dest r w' E)
    as [Hs [[Hc Hr]|(c & Hc & Hp & Hr)]]; (split; [exact Hs|]).
  - exists []. split; [rewrite List.app_nil_r; exact Hc|].
    split; [constructor|]. left. split; [reflexivity | exact Hr].
  - exists [c]. split; [exact Hc|]. split.
    + constructor; [|constructor].
      destruct c; try discriminate Hp; split; reflexivity.
    + right. exists c. simpl. rewrite Hp. split; [reflexivity | exact Hr].
Qed.

(** X12.  A write that returns has left the handle untouched and has read
    nothing; its reads, erases and writes of the backing store are one of
    four: none at all, with ESP_ERR_INVALID_SIZE or ESP_ERR_INVALID_ARG as
    the result; one erase of [size] bytes that failed, whose error is the
    result; that erase, successful, followed by one write of the same
    range from the caller's buffer, whose answer is the result; or one
    SD/MMC write starting at sector [lba], whose answer is the result.
    Flash is never written without having been erased just before. *)
Theorem write_call_shapes (lba offset size : Z) (src : ptr) (r : esp_err_t) (w' : world) :
  msc_storage_write_sector drv lba offset size src w = Done r w' ->
  s_storage_handle w' = s_storage_handle w /\
  exists l,
    calls w' = calls w ++ l /\
    List.Forall (fun c => is_read_primitive c = false) l /\
    ((List.filter is_medium_io l = [] /\
      (r = ESP_ERR_INVALID_SIZE \/ r = ESP_ERR_INVALID_ARG)) \/
     (exists x a,
        List.filter is_medium_io l = [wl_erase_range x a size] /\
        r = answer drv (calls w) (wl_erase_range x a size) /\ r <> ESP_OK) \/
     (exists x a,
        List.filter is_medium_io l = [wl_erase_range x a size; wl_write x a src size] /\
        answer drv (calls w) (wl_erase_range x a size) = ESP_OK /\
        r = answer drv (calls w ++ [wl_erase_range x a size]) (wl_write x a src size)) \/
     (exists c n,
        List.filter is_medium_io l = [sdmmc_write_sectors c src lba n] /\
        r = answer drv (calls w) (sdmmc_write_sectors c src lba n))).
Proof.
  intros E.
  destruct (write_sector_cases lba offset size src r w' E)
    as [Hs [[Hc Hr]|[(x & a & Hc & Hr & Hne)|[(x & a & Hc & He & Hr)
                                              |(c & n & Hc & Hr)]]]];
    (split; [exact Hs|]).
  - exists []. split; [rewrite List.app_nil_r; exact Hc|].
    split; [constructor|]. left. split; [reflexivity | exact Hr].
  - exists [wl_erase_range x a size]. split; [exact Hc|].
    split; [repeat constructor|]. right. left. exists x, a. repeat split; assumption.
  - exists [wl_erase_range x a size; wl_write x a src size]. split; [exact Hc|].
    split; [repeat constructor|]. right. right. left. exists x, a.
    repeat split; assumption.
  - exists [sdmmc_write_sectors c src lba n]. split; [exact Hc|].
    split; [repeat constructor|]. right. right. right. exists c, n.
    repeat split; assumption.
Qed.

End Frames.

Lemma read_only_reads_witness :
  s_storage_handle
    (mk_world (s_storage_handle sdmmc_world)
              [sdmmc_read_sectors (Some sample_card) 0x3000 3 2])
  = s_storage_handle sdmmc_world /\
  exists l,
    [sdmmc_read_sectors (Some sample_card) 0x3000 3 2] = [] ++ l /\
    List.Forall (fun c => is_erase_primitive c = false /\ is_write_primitive c = false) l /\
    ((List.filter is_read_primitive l = [] /\ ESP_OK = ESP_ERR_INVALID_SIZE) \/
     (exists c, List.filter is_read_primitive l = [c] /\
                ESP_OK = answer (sample_driver 512 ESP_OK) [] c)).
Proof.
  exact (read_only_reads (sample_driver 512 ESP_OK) sdmmc_world 3 9 1300 0x3000 ESP_OK
           (mk_world (s_storage_handle sdmmc_world)
                     [sdmmc_read_sectors (Some sample_card) 0x3000 3 2])
           eq_refl).
Defined.

Lemma write_call_shapes_witness :
  s_storage_handle
    (mk_world (s_storage_handle flash_world) [wl_erase_range 1 5120 512])
  = s_storage_handle flash_world.
Proof.
  exact (proj1 (write_call_shapes (sample_driver 512 ESP_FAIL) flash_world
                  10 0 512 0x3000 ESP_FAIL
                  (mk_world (s_storage_handle flash_world) [wl_erase_range 1 5120 512])
                  eq_refl)).
Defined.

Section EndToEnd.

Variable drv : driver.
Variables (w : world) (h : tinyusb_msc_storage_handle_s) (ss : Z).
Hypothesis Hh : s_storage_handle w = Some h.
Hypothesis Hss : tinyusb_msc_storage_get_sector_size drv w = Done ss w.

Lemma write_sector_accepted lba offset size src :
  0 <= lba < 2 ^ 32 -> 0 <= offset < 2 ^ 32 ->
  ss <> 0 ->
  lba * ss + offset < 2 ^ 32 ->
  (lba * ss + offset) mod ss = 0 ->
  size mod ss = 0 ->
  msc_storage_write_sector drv lba offset size src w
  = call_write drv (write h) ss (lba * ss + offset) lba offset size src w.
Proof.
  intros Hl Ho Hnz Hfit Ha Hs.
  rewrite (msc_storage_write_sector_unfold drv w h ss Hh Hss).
  destruct (translation_fits drv w h ss Hh Hss lba offset Hl Ho Hfit) as [Hm Hadd].
  rewrite Hm, Hadd. unfold bind, umod, ret.
  apply Z.eqb_neq in Hnz. rewrite Hnz, Ha, Hs. reflexivity.
Qed.

(** X13.  On the flash backend, a write that passes the checks (the
    address [lba * sector_size + offset] fits in 32 bits, address and size
    are multiples of the nonzero sector size) erases [size] bytes at that
    address and, if the erase succeeds, writes [size] bytes from the
    caller's buffer to the same address and returns the answer of the
    write; if the erase fails, its error is returned and nothing is
    written. *)
Theorem flash_write_end_to_end (x : wl_handle_t) (lba offset size : Z) (src : ptr) :
  write h = p_write_sector_spiflash ->
  backend h = wl_handle x ->
  0 <= lba < 2 ^ 32 -> 0 <= offset < 2 ^ 32 ->
  ss <> 0 ->
  lba * ss + offset < 2 ^ 32 ->
  (lba * ss + offset) mod ss = 0 ->
  size mod ss = 0 ->
  let addr := lba * ss + offset in
  let erase := wl_erase_range x addr size in
  msc_storage_write_sector drv lba offset size src w
  = if answer drv (calls w) erase =? ESP_OK
    then Done (answer drv (calls w ++ [erase]) (wl_write x addr src size))
              (mk_world (Some h) (calls w ++ [erase; wl_write x addr src size]))
    else Done (answer drv (calls w) erase) (mk_world (Some h) (calls w ++ [erase])).
Proof.
  intros Hw Hb Hl Ho Hnz Hfit Ha Hs addr erase.
  rewrite (write_sector_accepted lba offset size src Hl Ho Hnz Hfit Ha Hs), Hw.
  apply (write_sector_spiflash_value drv w h x ss addr lba offset size src Hh Hb).
Qed.

(** X14.  On the SD/MMC backend, a write that passes the same checks
    issues one card write of exactly [size / sector_size] whole sectors
    ([size] is their total length) starting at sector [lba], and returns
    its answer.  The start sector is [lba] whatever the offset, while the
    byte address checked before is that of sector [lba + offset / sector_size]. *)
Theorem sdmmc_write_end_to_end
        (c : option sdmmc_card_t) (lba offset size : Z) (src : ptr) :
  write h = p_write_sector_sdmmc ->
  backend h = card c ->
  0 <= lba < 2 ^ 32 -> 0 <= offset < 2 ^ 32 ->
  ss <> 0 ->
  lba * ss + offset < 2 ^ 32 ->
  (lba * ss + offset) mod ss = 0 ->
  size mod ss = 0 ->
  let wr := sdmmc_write_sectors c src lba (size / ss) in
  msc_storage_write_sector drv lba offset size src w
  = Done (answer drv (calls w) wr) (mk_world (Some h) (calls w ++ [wr])) /\
  size / ss * ss = size /\
  lba * ss + offset = (lba + offset / ss) * ss.
Proof.
  intros Hw Hb Hl Ho Hnz Hfit Ha Hs wr.
  split; [|split].
  - rewrite (write_sector_accepted lba offset size src Hl Ho Hnz Hfit Ha Hs), Hw.
    simpl.
    rewrite (write_sector_sdmmc_value drv w h ss Hh c _ lba offset size src Hb Hnz).
    unfold extern. rewrite Hh. reflexivity.
  - pose proof (Z.div_mod size ss Hnz). lia.
  - rewrite Z.add_comm, Z.mod_add in Ha by assumption.
    pose proof (Z.div_mod offset ss Hnz). lia.
Qed.

(** X15.  With a sector size of zero (the case the flash sector count
    guards against), a write on either backend and a read on the SD/MMC
    backend reach a division by the zero sector size, whatever the
    request; a read on the flash backend does not divide and goes to the
    wear-levelling read at address [offset]. *)
Theorem zero_sector_size_divides (lba offset size : Z) (buf : ptr) :
  ss = 0 ->
  0 <= offset < 2 ^ 32 ->
  msc_storage_write_sector drv lba offset size buf w = Stop division_by_zero /\
  (forall c, read h = p_read_sector_sdmmc -> backend h = card c ->
             msc_storage_read_sector drv lba offset size buf w = Stop division_by_zero) /\
  (forall x, read h = p_read_sector_spiflash -> backend h = wl_handle x ->
             msc_storage_read_sector drv lba offset size buf w
             = Done (answer drv (calls w) (wl_read x offset buf size))
                    (mk_world (Some h) (calls w ++ [wl_read x offset buf size]))).
Proof.
  intros Hz Ho.
  assert (Hm : __builtin_umul_overflow lba ss = (false, 0)).
  { subst ss. unfold __builtin_umul_overflow. change (uint32_t 0) with 0.
    rewrite Z.mul_0_r. reflexivity. }
  assert (Ha : __builtin_uadd_overflow 0 offset = (false, offset)).
  { pose proof (uadd_no_overflow 0 offset) as Hu. simpl in Hu. apply Hu; lia. }
  split; [|split].
  - rewrite (msc_storage_write_sector_unfold drv w h ss Hh Hss), Hm, Ha.
    subst ss. reflexivity.
  - intros c Hr Hb.
    rewrite (msc_storage_read_sector_unfold drv w h ss Hh Hss), Hr. simpl.
    unfold _read_sector_sdmmc, bind at 1.
    rewrite (get_card_bound w h Hh c Hb). subst ss. reflexivity.
  - intros x Hr Hb.
    rewrite (msc_storage_read_sector_unfold drv w h ss Hh Hss), Hr. simpl.
    unfold _read_sector_spiflash. rewrite Hm, Ha. unfold bind.
    rewrite (get_wl_handle_bound w h Hh x Hb). unfold extern. rewrite Hh.
    reflexivity.
Qed.

End EndToEnd.

Lemma flash_write_end_to_end_witness :
  msc_storage_write_sector (sample_driver 512 ESP_OK) 10 512 1024 0x3000 flash_world
  = Done ESP_OK
      (mk_world (s_storage_handle flash_world)
                [wl_erase_range 1 5632 1024; wl_write 1 5632 0x3000 1024]).
Proof.
  apply (flash_write_end_to_end (sample_driver 512 ESP_OK) flash_world _ 512
           eq_refl eq_refl 1 10 512 1024 0x3000 eq_refl eq_refl);
    try lia; reflexivity.
Defined.

Lemma sdmmc_write_end_to_end_witness :
  msc_storage_write_sector (sample_driver 512 ESP_OK) 10 512 1024 0x3000 sdmmc_world
  = Done ESP_OK
      (mk_world (s_storage_handle sdmmc_world)
                [sdmmc_write_sectors (Some sample_card) 0x3000 10 2]).
Proof.
  apply (sdmmc_write_end_to_end (sample_driver 512 ESP_OK) sdmmc_world _ 512
           eq_refl eq_refl (Some sample_card) 10 512 1024 0x3000 eq_refl eq_refl);
    try lia; reflexivity.
Defined.

Lemma zero_sector_size_divides_witness :
  msc_storage_write_sector (sample_driver 0 ESP_OK) 10 0 512 0x3000 flash_world
  = Stop division_by_zero.
Proof.
  apply (zero_sector_size_divides (sample_driver 0 ESP_OK) flash_world _ 0
           eq_refl eq_refl 10 0 512 0x3000); [reflexivity | lia].
Defined.

Section Transferred.

Variable drv : driver.
Variable w : world.

(** X16.  Read10 reports a nonzero number of bytes only when the request
    ended with a read of the backing store that answered ESP_OK, with no
    other read, erase or write before it in the request.  Write10 reports
    a nonzero number of bytes only when the request ended with a write of
    the backing store that answered ESP_OK, with no read before it in the
    request.  In both cases the handle is as before. *)
Theorem rw10_nonzero_means_transferred
        (lun lba offset : Z) (buffer : ptr) (bufsize r : Z) (w' : world) :
  r <> 0 ->
  (tud_msc_read10_cb drv lun lba offset buffer bufsize w = Done r w' ->
   s_storage_handle w' = s_storage_handle w /\
   exists l c, calls w' = calls w ++ l ++ [c] /\
               List.filter is_medium_io l = [] /\
               is_read_primitive c = true /\
               answer drv (calls w ++ l) c = ESP_OK) /\
  (tud_msc_write10_cb drv lun lba offset buffer bufsize w = Done r w' ->
   s_storage_handle w' = s_storage_handle w /\
   exists l c, calls w' = calls w ++ l ++ [c] /\
               List.Forall (fun c' => is_read_primitive c' = false) l /\
               is_write_primitive c = true /\
               answer drv (calls w ++ l) c = ESP_OK).
Proof.
  intros Hr. split.
  - unfold tud_msc_read10_cb, bind.
    destruct (msc_storage_read_sector drv lba offset bufsize buffer w)
      as [err w1|f] eqn:E; [|discriminate].
    destruct (Z.eqb_spec err ESP_OK) as [Eok|Eok]; simpl; intros E'; inversion E'; subst;
      [|contradiction].
    destruct (read_sector_cases drv w lba offset bufsize buffer _ _ E)
      as [Hs [[_ Hbad]|(c & Hc & Hp & Ha)]]; [discriminate|].
    split; [assumption|]. exists [], c. simpl. rewrite List.app_nil_r.
    repeat split; auto.
  - unfold tud_msc_write10_cb, bind.
    destruct (msc_storage_write_sector drv lba offset bufsize buffer w)
      as [err w1|f] eqn:E; [|discriminate].
    destruct (Z.eqb_spec err ESP_OK) as [Eok|Eok]; simpl; intros E'; inversion E'; subst;
      [|contradiction].
    destruct (write_sector_cases drv w lba offset bufsize buffer _ _ E)
      as [Hs [[_ [Hbad|Hbad]]|[(x & a & _ & _ & Hne)|[(x & a & Hc & He & Ha)
                                                     |(c & n & Hc & Ha)]]]];
      try discriminate; try (exfalso; apply Hne; reflexivity);
      (split; [assumption|]).
    + exists [wl_erase_range x a bufsize], (wl_write x a buffer bufsize).
      repeat split; auto.
    + exists [], (sdmmc_write_sectors c buffer lba n). simpl.
      rewrite List.app_nil_r. repeat split; auto.
Qed.

End Transferred.

Lemma rw10_nonzero_means_transferred_witness :
  s_storage_handle
    (mk_world (s_storage_handle flash_world)
              [wl_erase_range 1 5120 512; wl_write 1 5120 0x3000 512])
  = s_storage_handle flash_world /\
  exists l c, [wl_erase_range 1 5120 512; wl_write 1 5120 0x3000 512] = [] ++ l ++ [c] /\
              List.Forall (fun c' => is_read_primitive c' = false) l /\
              is_write_primitive c = true /\
              answer (sample_driver 512 ESP_OK) ([] ++ l) c = ESP_OK.
Proof.
  apply (proj2 (rw10_nonzero_means_transferred (sample_driver 512 ESP_OK) flash_world
                  0 10 0 0x3000 512 512
                  (mk_world (s_storage_handle flash_world)
                            [wl_erase_range 1 5120 512; wl_write 1 5120 0x3000 512])
                  ltac:(discriminate))).
  reflexivity.
Defined.

(** ** Composition of callback registrations *)

Section CallbackAlgebra.

Variables (w : world) (h : tinyusb_msc_storage_handle_s).
Hypothesis Hh : s_storage_handle w = Some h.

Ltac by_event_kind ev :=
  unfold tinyusb_msc_register_callback, tinyusb_msc_unregister_callback;
  run; rewrite Hh;
  destruct (ev =? TINYUSB_MSC_EVENT_MOUNT_CHANGED);
  [simpl; repeat (rewrite Hh; simpl); reflexivity|];
  destruct (ev =? TINYUSB_MSC_EVENT_PREMOUNT_CHANGED);
  simpl; repeat (rewrite Hh; simpl); reflexivity.

(** X17.  For every event kind, recognised or not: unregistering is
    registering NULL; of two registrations in a row the second one alone
    decides the result and the stored callback; and a registration
    followed by an unregistration leaves the callback cleared, as the
    unregistration alone does. *)
Theorem last_registration_wins (event_type : tinyusb_msc_event_type_t)
        (cb1 cb2 : tusb_msc_callback_t) :
  tinyusb_msc_unregister_callback event_type w
  = tinyusb_msc_register_callback event_type NULL w /\
  (tinyusb_msc_register_callback event_type cb1 ;;;
   tinyusb_msc_register_callback event_type cb2) w
  = tinyusb_msc_register_callback event_type cb2 w /\
  (tinyusb_msc_register_callback event_type cb1 ;;;
   tinyusb_msc_unregister_callback event_type) w
  = tinyusb_msc_unregister_callback event_type w.
Proof.
  split; [reflexivity|]. split; by_event_kind event_type.
Qed.

(** X18.  The two callbacks are independent: registering (or clearing)
    the mount callback and the premount callback in either order gives the
    same handle, which holds both, and neither registration makes a call. *)
Theorem registrations_commute (mount premount : tusb_msc_callback_t) :
  (tinyusb_msc_register_callback TINYUSB_MSC_EVENT_MOUNT_CHANGED mount ;;;
   tinyusb_msc_register_callback TINYUSB_MSC_EVENT_PREMOUNT_CHANGED premount) w
  = Done ESP_OK
      (mk_world (Some (mk_handle (backend h) (sector_count h) (sector_size h) (read h)
                                 (write h) mount premount (max_files h)))
                (calls w)) /\
  (tinyusb_msc_register_callback TINYUSB_MSC_EVENT_PREMOUNT_CHANGED premount ;;;
   tinyusb_msc_register_callback TINYUSB_MSC_EVENT_MOUNT_CHANGED mount) w
  = Done ESP_OK
      (mk_world (Some (mk_handle (backend h) (sector_count h) (sector_size h) (read h)
                                 (write h) mount premount (max_files h)))
                (calls w)).
Proof.
  unfold tinyusb_msc_register_callback. run.
  split; repeat (rewrite Hh; simpl); reflexivity.
Qed.

End CallbackAlgebra.

Lemma last_registration_wins_witness :
  (tinyusb_msc_register_callback 1 0x5000 ;;; tinyusb_msc_register_callback 1 0x6000)
    sdmmc_world
  = tinyusb_msc_register_callback 1 0x6000 sdmmc_world.
Proof.
  exact (proj1 (proj2 (last_registration_wins sdmmc_world _ eq_refl 1 0x5000 0x6000))).
Defined.

Lemma registrations_commute_witness :
  (tinyusb_msc_register_callback TINYUSB_MSC_EVENT_PREMOUNT_CHANGED 0x6000 ;;;
   tinyusb_msc_register_callback TINYUSB_MSC_EVENT_MOUNT_CHANGED 0x5000) flash_world
  = Done ESP_OK
      (mk_world (Some (mk_handle (wl_handle 1) p_get_sector_count_spiflash
                                 p_get_sector_size_spiflash p_read_sector_spiflash
                                 p_write_sector_spiflash 0x5000 0x6000 2)) []).
Proof.
  exact (proj2 (registrations_commute flash_world _ eq_refl 0x5000 0x6000)).
Defined.

(** ** The inquiry callback *)

Section Inquiry.

Variable w : world.

Lemma memcpy_value dest src n :
  (n <= List.length dest)%nat -> (n <= List.length src)%nat ->
  memcpy dest src n w = Done (List.firstn n src ++ List.skipn n dest) w.
Proof.
  intros Hd Hs. unfold memcpy.
  apply Nat.leb_le in Hd, Hs. rewrite Hd, Hs. reflexivity.
Qed.

(** X19.  Given arrays of the declared sizes 8, 16 and 4, the inquiry
    callback finishes in any world, with or without a storage handle, and
    changes nothing but the arrays: each keeps its size, starts with the
    characters of TinyUSB (7 bytes), Flash Storage (13 bytes) and 0.1
    (3 bytes), and keeps its remaining bytes as the caller left them; no
    terminator and no padding is written.  The result does not depend on
    [lun]. *)
Theorem inquiry_fills_prefixes (lun : Z) (vendor_id product_id product_rev : list Z) :
  List.length vendor_id = 8%nat ->
  List.length product_id = 16%nat ->
  List.length product_rev = 4%nat ->
  exists v p r,
    tud_msc_inquiry_cb lun vendor_id product_id product_rev w = Done (v, p, r) w /\
    List.length v = 8%nat /\ List.length p = 16%nat /\ List.length r = 4%nat /\
    List.firstn 7 v = [84; 105; 110; 121; 85; 83; 66] /\
    List.skipn 7 v = List.skipn 7 vendor_id /\
    List.firstn 13 p = [70; 108; 97; 115; 104; 32; 83; 116; 111; 114; 97; 103; 101] /\
    List.skipn 13 p = List.skipn 13 product_id /\
    List.firstn 3 r = [48; 46; 49] /\
    List.skipn 3 r = List.skipn 3 product_rev.
Proof.
  intros Hv Hp Hr.
  unfold tud_msc_inquiry_cb, bind.
  change (strlen (c_string "TinyUSB")) with 7%nat.
  change (strlen (c_string "Flash Storage")) with 13%nat.
  change (strlen (c_string "0.1")) with 3%nat.
  rewrite memcpy_value by (rewrite ?Hv; simpl; lia).
  rewrite memcpy_value by (rewrite ?Hp; simpl; lia).
  rewrite memcpy_value by (rewrite ?Hr; simpl; lia).
  eexists _, _, _. split; [reflexivity|].
  repeat (destruct vendor_id as [|? vendor_id]; try discriminate).
  repeat (destruct product_id as [|? product_id]; try discriminate).
  repeat (destruct product_rev as [|? product_rev]; try discriminate).
  repeat split.
Qed.

End Inquiry.

Lemma inquiry_fills_prefixes_witness :
  exists v p r,
    tud_msc_inquiry_cb 0 [32; 32; 32; 32; 32; 32; 32; 32]
      [0; 0; 0; 0; 0; 0; 0; 0; 0; 0; 0; 0; 0; 1; 2; 3] [9; 9; 9; 9] boot
    = Done (v, p, r) boot /\
    List.length v = 8%nat /\ List.length p = 16%nat /\ List.length r = 4%nat /\
    List.firstn 7 v = [84; 105; 110; 121; 85; 83; 66] /\
    List.skipn 7 v = [32] /\
    List.firstn 13 p = [70; 108; 97; 115; 104; 32; 83; 116; 111; 114; 97; 103; 101] /\
    List.skipn 13 p = [1; 2; 3] /\
    List.firstn 3 r = [48; 46; 49] /\
    List.skipn 3 r = [9].
Proof.
  exact (inquiry_fills_prefixes boot 0 [32; 32; 32; 32; 32; 32; 32; 32]
           [0; 0; 0; 0; 0; 0; 0; 0; 0; 0; 0; 0; 0; 1; 2; 3] [9; 9; 9; 9]
           eq_refl eq_refl eq_refl).
Defined.

(** ** From init to the capacity reported *)

Section CapacityValues.

Variable drv : driver.
Variables (w : world) (h : tinyusb_msc_storage_handle_s).
Hypothesis Hh : s_storage_handle w = Some h.

Lemma capacity_cb_spiflash_value lun x :
  backend h = wl_handle x ->
  x <> WL_INVALID_HANDLE ->
  sector_count h = p_get_sector_count_spiflash ->
  sector_size h = p_get_sector_size_spiflash ->
  0 <= wl_sector_size drv x < 2 ^ 32 ->
  0 <= wl_size drv x < 2 ^ 32 ->
  tud_msc_capacity_cb drv lun w
  = Done (if wl_sector_size drv x =? 0 then 0 else wl_size drv x / wl_sector_size drv x,
          wl_sector_size drv x mod 2 ^ 16) w.
Proof.
  intros Hb Hx Hc Hs Hss Hsz.
  unfold tud_msc_capacity_cb, bind.
  rewrite (storage_get_sector_count_unfold drv w h Hh), Hc. simpl.
  rewrite (get_sector_count_spiflash_value drv w h Hh x Hb Hx).
  rewrite (storage_get_sector_size_unfold drv w h Hh), Hs. simpl.
  rewrite (get_sector_size_spiflash_value drv w h Hh x Hb Hx).
  rewrite (size_t_small _ Hss), (size_t_small _ Hsz), (uint32_t_small _ Hss).
  unfold ret, uint16_t.
  destruct (Z.eqb_spec (wl_sector_size drv x) 0) as [E|E]; [reflexivity|].
  rewrite uint32_t_small; [reflexivity|].
  split; [apply Z.div_pos; lia | apply Z.div_lt_upper_bound; nia].
Qed.

Lemma capacity_cb_sdmmc_value lun cd :
  backend h = card (Some cd) ->
  sector_count h = p_get_sector_count_sdmmc ->
  sector_size h = p_get_sector_size_sdmmc ->
  tud_msc_capacity_cb drv lun w
  = Done (csd_capacity cd mod 2 ^ 32, (csd_sector_size cd mod 2 ^ 32) mod 2 ^ 16) w.
Proof.
  intros Hb Hc Hs.
  unfold tud_msc_capacity_cb, bind.
  rewrite (storage_get_sector_count_unfold drv w h Hh), Hc. simpl.
  rewrite (get_sector_count_sdmmc_value w h Hh cd Hb).
  rewrite (storage_get_sector_size_unfold drv w h Hh), Hs. simpl.
  rewrite (get_sector_size_sdmmc_value w h Hh cd Hb).
  reflexivity.
Qed.

End CapacityValues.

Section InitThenCapacity.

Variable drv : driver.
Variable w : world.
Variable junk : tinyusb_msc_storage_handle_s.
Hypothesis Hnone : s_storage_handle w = None.
Hypothesis Hmalloc : malloc drv = Some junk.

(** X20.  A capacity query right after a successful init reports, on
    flash with a valid wear-levelling handle, the number of whole sectors
    of the partition (0 when the sector size is 0) and the sector size
    modulo [2^16]; on SD/MMC with a card, the card's capacity and sector
    size converted to [uint32_t], the latter modulo [2^16].  Neither step
    reads, erases or writes the backing store (on flash the sizes are
    queried from the wear-levelling library). *)
Theorem init_then_capacity (lun : Z) :
  (forall config,
     cfg_wl_handle config <> WL_INVALID_HANDLE ->
     0 <= wl_sector_size drv (cfg_wl_handle config) < 2 ^ 32 ->
     0 <= wl_size drv (cfg_wl_handle config) < 2 ^ 32 ->
     exists w' l,
       (tinyusb_msc_storage_init_spiflash drv config ;;; tud_msc_capacity_cb drv lun) w
       = Done (if wl_sector_size drv (cfg_wl_handle config) =? 0 then 0
               else wl_size drv (cfg_wl_handle config)
                    / wl_sector_size drv (cfg_wl_handle config),
               wl_sector_size drv (cfg_wl_handle config) mod 2 ^ 16) w' /\
       calls w' = calls w ++ l /\ List.filter is_medium_io l = []) /\
  (forall config cd,
     cfg_card config = Some cd ->
     exists w' l,
       (tinyusb_msc_storage_init_sdmmc drv config ;;; tud_msc_capacity_cb drv lun) w
       = Done (csd_capacity cd mod 2 ^ 32, (csd_sector_size cd mod 2 ^ 32) mod 2 ^ 16) w' /\
       calls w' = calls w ++ l /\ List.filter is_medium_io l = []).
Proof.
  split.
  - intros config Hx Hss Hsz.
    rewrite (world_without_handle w Hnone). unfold bind at 1.
    rewrite (init_spiflash_value drv junk Hmalloc). cbv beta iota.
    eexists. exists []. split; [|split].
    + apply capacity_cb_spiflash_value
        with (h := mk_handle (wl_handle (cfg_wl_handle config))
                     p_get_sector_count_spiflash p_get_sector_size_spiflash
                     p_read_sector_spiflash p_write_sector_spiflash
                     (cfg_flash_callback_mount_changed config)
                     (cfg_flash_callback_premount_changed config)
                     (if cfg_flash_max_files config >? 0
                      then cfg_flash_max_files config else 2));
        try reflexivity; assumption.
    + simpl. symmetry. apply List.app_nil_r.
    + reflexivity.
  - intros config cd Hc.
    rewrite (world_without_handle w Hnone). unfold bind at 1.
    rewrite (init_sdmmc_value drv junk Hmalloc). cbv beta iota. rewrite Hc.
    eexists. exists []. split; [|split].
    + apply capacity_cb_sdmmc_value
        with (h := mk_handle (card (Some cd))
                     p_get_sector_count_sdmmc p_get_sector_size_sdmmc
                     p_read_sector_sdmmc p_write_sector_sdmmc
                     (cfg_sdmmc_callback_mount_changed config)
                     (cfg_sdmmc_callback_premount_changed config)
                     (if cfg_sdmmc_max_files config >? 0
                      then cfg_sdmmc_max_files config else 2));
        reflexivity.
    + simpl. symmetry. apply List.app_nil_r.
    + reflexivity.
Qed.

End InitThenCapacity.

Lemma init_then_capacity_witness :
  exists w' l,
    (tinyusb_msc_storage_init_spiflash (sample_driver 4096 ESP_OK)
       (mk_spiflash_config 1 NULL NULL 0) ;;;
     tud_msc_capacity_cb (sample_driver 4096 ESP_OK) 0) boot
    = Done (256, 4096) w' /\
    calls w' = calls boot ++ l /\ List.filter is_medium_io l = [].
Proof.
  apply (proj1 (init_then_capacity (sample_driver 4096 ESP_OK) boot fresh_block
                  eq_refl eq_refl 0)
               (mk_spiflash_config 1 NULL NULL 0)); simpl; try lia. discriminate.
Defined.
